(** * drone-helm3: the plugin's configuration loader

    A shallow embedding of [NewConfig] and [logDebug] (package [helm]) together
    with the parts of the Go libraries they call:

    - [utf8]     : [DecodeRuneInString], [DecodeLastRuneInString]
    - [unicode]  : [IsSpace]
    - [strings]  : [ToUpper], [TrimSpace], [Split], [Join]
    - [strconv]  : [ParseBool]
    - [regexp]   : the matcher for the pattern [^\d+$]
    - [os]       : [LookupEnv]
    - [syscall]  : [Setenv], [Unsetenv]
    - [envconfig]: [gatherInfo], [processField], [Process]
                   (github.com/kelseyhightower/envconfig v1.4.0)
    - [fmt]      : the [%+v] rendering of the [Config] struct, [Fprintf]

    Go strings are byte sequences; they are modelled by [string] (a list of
    8-bit characters).  [TrimSpace] decodes them as UTF-8, as Go does.
    [ToUpper] is the branch of Go's function for strings of ASCII bytes: the
    case tables of Unicode are not reproduced, and a byte above 0x7f is left
    alone, where Go would decode a rune and map it. *)

From Stdlib Require Import String Ascii List Bool NArith Arith Lia.
From Stdlib Require Import Permutation.
Import ListNotations.
Open Scope string_scope.

(** ** Outcomes of Go calls: a normal return or a run-time panic *)

Inductive Outcome (A : Type) : Type :=
| Ret (a : A)
| Panic.
Arguments Ret {A} a.
Arguments Panic {A}.

(** ** package unicode/utf8

    Go's standard library. A rune is its code point, a number. *)

Module utf8.

Definition RuneError : N := 65533.
Definition RuneSelf : N := 128.
Definition UTFMax : nat := 4.

(** [s[i]], and [s[i:j]]. *)
Definition byteAt (s : string) (i : nat) : N :=
  match String.get i s with
  | Some c => N_of_ascii c
  | None => 0
  end.

Definition slice (s : string) (i j : nat) : string := String.substring i (j - i) s.

(** What the table [first] tells about the first byte of a sequence: an
    ASCII byte, a byte that starts no sequence, or the size of the sequence
    with the range accepted for its second byte. *)
Inductive First : Type :=
| ASCII
| Invalid
| Lead (size : nat) (lo hi : N).

Definition first (b : N) : First :=
  (if b <? 128 then ASCII
   else if b <? 194 then Invalid
   else if b <? 224 then Lead 2 128 191
   else if b =? 224 then Lead 3 160 191
   else if b <? 237 then Lead 3 128 191
   else if b =? 237 then Lead 3 128 159
   else if b <? 240 then Lead 3 128 191
   else if b =? 240 then Lead 4 144 191
   else if b <? 244 then Lead 4 128 191
   else if b =? 244 then Lead 4 128 143
   else Invalid)%N.

(** A continuation byte: between [locb] and [hicb]. *)
Definition continues (b : N) : bool := ((128 <=? b) && (b <=? 191))%N.

(** [utf8.DecodeRuneInString]: the rune at the head of [s] and its width in
    bytes; [RuneError] with width 1 for bytes that are no encoding. *)
Definition DecodeRuneInString (s : string) : N * nat :=
  match s with
  | EmptyString => (RuneError, 0)
  | String c0 t0 =>
      let s0 := N_of_ascii c0 in
      match first s0 with
      | ASCII => (s0, 1)
      | Invalid => (RuneError, 1)
      | Lead sz lo hi =>
          if (String.length s <? sz)%nat then (RuneError, 1)
          else
            match t0 with
            | EmptyString => (RuneError, 1)
            | String c1 t1 =>
                let s1 := N_of_ascii c1 in
                if ((s1 <? lo) || (hi <? s1))%N then (RuneError, 1)
                else if (sz <=? 2)%nat
                then (N.lor (N.shiftl (N.land s0 31) 6) (N.land s1 63), 2)
                else
                  match t1 with
                  | EmptyString => (RuneError, 1)
                  | String c2 t2 =>
                      let s2 := N_of_ascii c2 in
                      if negb (continues s2) then (RuneError, 1)
                      else if (sz <=? 3)%nat
                      then (N.lor (N.shiftl (N.land s0 15) 12)
                              (N.lor (N.shiftl (N.land s1 63) 6) (N.land s2 63)), 3)
                      else
                        match t2 with
                        | EmptyString => (RuneError, 1)
                        | String c3 _ =>
                            let s3 := N_of_ascii c3 in
                            if negb (continues s3) then (RuneError, 1)
                            else (N.lor (N.shiftl (N.land s0 7) 18)
                                    (N.lor (N.shiftl (N.land s1 63) 12)
                                       (N.lor (N.shiftl (N.land s2 63) 6)
                                          (N.land s3 63))), 4)
                        end
                  end
            end
      end
  end.

(** [utf8.RuneStart]: not a continuation byte. *)
Definition RuneStart (b : N) : bool := negb (N.land b 192 =? 128)%N.

(** The loop of [DecodeLastRuneInString] that looks for the start of the
    last rune: the candidates [lim + n - 1] down to [lim] in turn, the first
    that starts a rune; when none does the loop ends below [lim], and an
    index below 0 is set to 0. *)
Fixpoint scanBack (s : string) (lim n : nat) : nat :=
  match n with
  | O => lim - 1
  | S k => if RuneStart (byteAt s (lim + k)) then lim + k else scanBack s lim k
  end.

(** [utf8.DecodeLastRuneInString]: the rune at the end of [s] and its
    width. *)
Definition DecodeLastRuneInString (s : string) : N * nat :=
  let end_ := String.length s in
  if (end_ =? 0)%nat then (RuneError, 0)
  else
    let r := byteAt s (end_ - 1) in
    if (r <? RuneSelf)%N then (r, 1)
    else
      let lim := end_ - UTFMax in
      let start := scanBack s lim (end_ - 1 - lim) in
      let (r, size) := DecodeRuneInString (slice s start end_) in
      if (start + size =? end_)%nat then (r, size) else (RuneError, 1).

End utf8.

(** ** package unicode

    Go's standard library. *)

Module unicode.

Definition MaxLatin1 : N := 255.

(** The table [White_Space]: ranges of 16-bit code points, each with its
    low end, high end and stride; the first [LatinOffset] ranges lie in
    Latin-1. *)
Definition White_Space : list (N * N * N) :=
  [ (9, 13, 1); (32, 133, 101); (160, 5760, 5600); (8192, 8202, 1);
    (8232, 8233, 1); (8239, 8287, 48); (12288, 12288, 1) ]%N.

Definition LatinOffset : nat := 2.

Definition inRange (r : N) (range : N * N * N) : bool :=
  let '(lo, hi, stride) := range in
  ((lo <=? r) && (r <=? hi) && ((r - lo) mod stride =? 0))%N.

(** [isExcludingLatin(White_Space, r)] *)
Definition isExcludingLatin (table : list (N * N * N)) (r : N) : bool :=
  existsb (inRange r) (skipn LatinOffset table).

(** [unicode.IsSpace]: in Latin-1 the characters \t \n \v \f \r, space,
    U+0085 and U+00A0; above, the runes of [White_Space]. *)
Definition IsSpace (r : N) : bool :=
  if (r <=? MaxLatin1)%N
  then existsb (N.eqb r) [9; 10; 11; 12; 13; 32; 133; 160]%N
  else isExcludingLatin White_Space r.

End unicode.

(** ** package strings

    Go's standard library; not among the sources of the repository. *)

Module strings.

Definition isUpper (c : ascii) : bool :=
  ((65 <=? N_of_ascii c) && (N_of_ascii c <=? 90))%N.

Definition isLower (c : ascii) : bool :=
  ((97 <=? N_of_ascii c) && (N_of_ascii c <=? 122))%N.

Definition upperChar (c : ascii) : ascii :=
  if isLower c then ascii_of_N (N_of_ascii c - 32) else c.

(** The first loop of [strings.ToUpper]: whether every byte of the string is
    below [utf8.RuneSelf]. *)
Fixpoint isASCII (s : string) : bool :=
  match s with
  | EmptyString => true
  | String c s' => (N_of_ascii c <? utf8.RuneSelf)%N && isASCII s'
  end.

(** [strings.ToUpper] on a string for which [isASCII] holds: the letters a
    to z become A to Z and every other byte stays. For another string Go
    maps the runes through [unicode.ToUpper]; that branch is not modelled,
    and the result below is then not Go's. *)
Fixpoint ToUpper (s : string) : string :=
  match s with
  | EmptyString => EmptyString
  | String c s' => String (upperChar c) (ToUpper s')
  end.

(** [indexFunc(s, f, truth)]: the index of the first rune [r] of [s] with
    [f(r) == truth], if any. [rest] is [s] from index [i] on; [range] visits
    the runes one after the other, so the [skip] bytes that belong to the
    rune decoded last are passed over. *)
Fixpoint indexFrom (rest : string) (i skip : nat) (f : N -> bool) (truth : bool)
  : option nat :=
  match rest with
  | EmptyString => None
  | String _ rest' =>
      match skip with
      | S k => indexFrom rest' (S i) k f truth
      | O =>
          let (r, size) := utf8.DecodeRuneInString rest in
          if Bool.eqb (f r) truth then Some i
          else indexFrom rest' (S i) (size - 1) f truth
      end
  end.

Definition indexFunc (s : string) (f : N -> bool) (truth : bool) : option nat :=
  indexFrom s 0 0 f truth.

(** [lastIndexFunc(s, f, truth)]: the same from the end, with
    [DecodeLastRuneInString] on [s[0:i]]; [i] goes down by the width of the
    rune decoded. *)
Fixpoint lastIndexFrom (s : string) (i skip : nat) (f : N -> bool) (truth : bool)
  : option nat :=
  match i with
  | O => None
  | S i' =>
      match skip with
      | S k => lastIndexFrom s i' k f truth
      | O =>
          let (r, size) := utf8.DecodeLastRuneInString (utf8.slice s 0 i) in
          if Bool.eqb (f r) truth then Some (i - size)
          else lastIndexFrom s i' (size - 1) f truth
      end
  end.

Definition lastIndexFunc (s : string) (f : N -> bool) (truth : bool) : option nat :=
  lastIndexFrom s (String.length s) 0 f truth.

(** [strings.TrimLeftFunc] *)
Definition TrimLeftFunc (s : string) (f : N -> bool) : string :=
  match indexFunc s f false with
  | None => EmptyString
  | Some i => utf8.slice s i (String.length s)
  end.

(** [strings.TrimRightFunc]: from the start of the last rune that is kept,
    the index moves past that rune. *)
Definition TrimRightFunc (s : string) (f : N -> bool) : string :=
  match lastIndexFunc s f false with
  | Some i =>
      if (utf8.RuneSelf <=? utf8.byteAt s i)%N
      then
        let (_, wid) := utf8.DecodeRuneInString (utf8.slice s i (String.length s)) in
        utf8.slice s 0 (i + wid)
      else utf8.slice s 0 (i + 1)
  | None => utf8.slice s 0 0
  end.

(** [strings.TrimFunc] *)
Definition TrimFunc (s : string) (f : N -> bool) : string :=
  TrimRightFunc (TrimLeftFunc s f) f.

(** The table [asciiSpace]: \t \n \v \f \r and space. *)
Definition asciiSpace (c : N) : bool := existsb (N.eqb c) [9; 10; 11; 12; 13; 32]%N.

(** The first loop of [TrimSpace], over the bytes from the start: [inl] is
    what the function returns when the loop meets a byte that is not ASCII,
    [inr] the string from the index [start] on when the loop ends. *)
Fixpoint trimStart (rest : string) : string + string :=
  match rest with
  | EmptyString => inr EmptyString
  | String c rest' =>
      if (utf8.RuneSelf <=? N_of_ascii c)%N then inl (TrimFunc rest unicode.IsSpace)
      else if asciiSpace (N_of_ascii c) then trimStart rest'
      else inr rest
  end.

(** The second loop, over the bytes of [s[start:]] from the end. *)
Fixpoint trimStop (s : string) (stop : nat) : string :=
  match stop with
  | O => utf8.slice s 0 0
  | S stop' =>
      let c := utf8.byteAt s stop' in
      if (utf8.RuneSelf <=? c)%N then TrimRightFunc (utf8.slice s 0 stop) unicode.IsSpace
      else if asciiSpace c then trimStop s stop'
      else utf8.slice s 0 stop
  end.

(** [strings.TrimSpace]: leading and trailing white space, as Unicode
    defines it, removed. *)
Definition TrimSpace (s : string) : string :=
  match trimStart s with
  | inl result => result
  | inr rest => trimStop rest (String.length rest)
  end.

(** [strings.Split(s, sep)] for a separator of one byte: the pieces between
    the separators, in order; a string without separator is its only piece. *)
Fixpoint Split (s : string) (sep : ascii) : list string :=
  match s with
  | EmptyString => [EmptyString]
  | String c s' =>
      if Ascii.eqb c sep then EmptyString :: Split s' sep
      else match Split s' sep with
           | w :: ws => String c w :: ws
           | [] => [String c EmptyString]
           end
  end.

(** [strings.Join] *)
Definition Join (elems : list string) (sep : string) : string :=
  String.concat sep elems.

(** [strings.Contains] *)
Fixpoint Contains (s substr : string) : bool :=
  String.prefix substr s ||
  match s with
  | EmptyString => false
  | String _ s' => Contains s' substr
  end.

End strings.

(** ** package strconv

    Go's standard library. *)

Module strconv.

(** [*strconv.NumError] *)
Record NumError : Type := mkNumError {
  Func : string;
  Num : string;
  Err : string
}.

Definition ErrSyntax : string := "invalid syntax".

Definition oneOf (str : string) (l : list string) : bool :=
  existsb (String.eqb str) l.

(** [strconv.ParseBool]: a switch over twelve literal strings. *)
Definition ParseBool (str : string) : bool * option NumError :=
  if oneOf str ["1"; "t"; "T"; "TRUE"; "true"; "True"] then (true, None)
  else if oneOf str ["0"; "f"; "F"; "FALSE"; "false"; "False"] then (false, None)
  else (false, Some (mkNumError "ParseBool" str ErrSyntax)).

End strconv.

(** ** package regexp, as far as [^\d+$] needs it

    Go's standard library. In Go's syntax [$] without the m flag matches at
    the end of the text only, and [\d] is the class of the ASCII digits. *)

Module regexp.

(** Syntax trees of the patterns built from [^], [$], [\d] and [+] applied to
    a character class. *)
Inductive Regexp : Type :=
| BeginText
| EndText
| Class (p : ascii -> bool)
| PlusClass (p : ascii -> bool)
| Concat (r1 r2 : Regexp).

(** [\d]: the ASCII digits. *)
Definition perlDigit (c : ascii) : bool :=
  ((48 <=? N_of_ascii c) && (N_of_ascii c <=? 57))%N.

(** One or more characters of the class, longest first, then the rest of the
    pattern [k] on what is left. *)
Fixpoint plusFrom (p : ascii -> bool) (s : string) (k : string -> bool) : bool :=
  match s with
  | EmptyString => false
  | String c s' => if p c then plusFrom p s' k || k s' else false
  end.

(** Backtracking match of [r] at the current position. [bot] tells whether
    the position is the beginning of the text; [k] is the rest of the
    pattern, given the position reached. *)
Fixpoint matchAt (r : Regexp) (bot : bool) (s : string)
                 (k : bool -> string -> bool) : bool :=
  match r with
  | BeginText => if bot then k bot s else false
  | EndText => match s with EmptyString => k bot s | _ => false end
  | Class p =>
      match s with
      | EmptyString => false
      | String c s' => if p c then k false s' else false
      end
  | PlusClass p => plusFrom p s (k false)
  | Concat r1 r2 => matchAt r1 bot s (fun b s' => matchAt r2 b s' k)
  end.

(** An unanchored search: a match may start at any position. *)
Fixpoint searchFrom (r : Regexp) (bot : bool) (s : string) : bool :=
  matchAt r bot s (fun _ _ => true) ||
  match s with
  | EmptyString => false
  | String _ s' => searchFrom r false s'
  end.

(** [Regexp.MatchString] *)
Definition MatchString (r : Regexp) (s : string) : bool := searchFrom r true s.

End regexp.

(** ** package os

    Go's standard library. *)

Module os.

(** The process environment: the [KEY=value] entries in order; the first
    entry of a key is the one [LookupEnv] sees. *)
Definition Environ : Type := list (string * string).

Fixpoint LookupEnv (env : Environ) (key : string) : option string :=
  match env with
  | [] => None
  | (k, v) :: env' => if String.eqb k key then Some v else LookupEnv env' key
  end.

End os.

(** ** package helm: the [Config] struct *)

(** An [io.Writer] value that is not nil: the destination it stands for,
    the text [fmt] prints for it under [%v] inside a struct (the address of a
    pointer such as [*os.File], [String()] of a [fmt.Stringer] such as
    [*strings.Builder], [<nil>] for a nil pointer), and its method [Write],
    which is handed a text and returns or panics. What [Write] returns is
    left out: [logDebug] drops it. A nil interface is [None]. *)
Record Writer : Type := Build_Writer {
  dest : N;
  shown : string;
  Write : string -> Outcome unit
}.

(** A writer whose [Write] returns, such as [os.Stderr] or
    [&strings.Builder{}]. *)
Definition mkWriter (dest : N) (shown : string) : Writer :=
  Build_Writer dest shown (fun _ => Ret tt).


(** The kinds of the fields of [Config] and the values they hold. *)
Inductive Kind : Type := KString | KBool | KStrings | KInterface.

Inductive Value : Type :=
| VString (s : string)
| VBool (b : bool)
| VStrings (l : list string)
| VWriter (w : option Writer).

Record Config : Type := mkConfig {
  Command : string;
  DroneEvent : string;
  UpdateDependencies : bool;
  AddRepos : list string;
  Prefix : string;
  Debug : bool;
  Values : string;
  StringValues : string;
  ValuesFiles : list string;
  Namespace : string;
  KubeToken : string;
  SkipTLSVerify : bool;
  Certificate : string;
  APIServer : string;
  ServiceAccount : string;
  ChartVersion : string;
  DryRun : bool;
  Wait : bool;
  ReuseValues : bool;
  Timeout : string;
  Chart : string;
  Release : string;
  Force : bool;
  Stdout : option Writer;
  Stderr : option Writer
}.

Inductive Field : Type :=
| FCommand
| FDroneEvent
| FUpdateDependencies
| FAddRepos
| FPrefix
| FDebug
| FValues
| FStringValues
| FValuesFiles
| FNamespace
| FKubeToken
| FSkipTLSVerify
| FCertificate
| FAPIServer
| FServiceAccount
| FChartVersion
| FDryRun
| FWait
| FReuseValues
| FTimeout
| FChart
| FRelease
| FForce
| FStdout
| FStderr.

Definition structFields : list Field :=
  [ FCommand; FDroneEvent; FUpdateDependencies; FAddRepos;
    FPrefix; FDebug; FValues; FStringValues;
    FValuesFiles; FNamespace; FKubeToken; FSkipTLSVerify;
    FCertificate; FAPIServer; FServiceAccount; FChartVersion;
    FDryRun; FWait; FReuseValues; FTimeout;
    FChart; FRelease; FForce; FStdout;
    FStderr ].

Definition fieldName (f : Field) : string :=
  match f with
  | FCommand => "Command"
  | FDroneEvent => "DroneEvent"
  | FUpdateDependencies => "UpdateDependencies"
  | FAddRepos => "AddRepos"
  | FPrefix => "Prefix"
  | FDebug => "Debug"
  | FValues => "Values"
  | FStringValues => "StringValues"
  | FValuesFiles => "ValuesFiles"
  | FNamespace => "Namespace"
  | FKubeToken => "KubeToken"
  | FSkipTLSVerify => "SkipTLSVerify"
  | FCertificate => "Certificate"
  | FAPIServer => "APIServer"
  | FServiceAccount => "ServiceAccount"
  | FChartVersion => "ChartVersion"
  | FDryRun => "DryRun"
  | FWait => "Wait"
  | FReuseValues => "ReuseValues"
  | FTimeout => "Timeout"
  | FChart => "Chart"
  | FRelease => "Release"
  | FForce => "Force"
  | FStdout => "Stdout"
  | FStderr => "Stderr"
  end.

Definition fieldKind (f : Field) : Kind :=
  match f with
  | FCommand => KString
  | FDroneEvent => KString
  | FUpdateDependencies => KBool
  | FAddRepos => KStrings
  | FPrefix => KString
  | FDebug => KBool
  | FValues => KString
  | FStringValues => KString
  | FValuesFiles => KStrings
  | FNamespace => KString
  | FKubeToken => KString
  | FSkipTLSVerify => KBool
  | FCertificate => KString
  | FAPIServer => KString
  | FServiceAccount => KString
  | FChartVersion => KString
  | FDryRun => KBool
  | FWait => KBool
  | FReuseValues => KBool
  | FTimeout => KString
  | FChart => KString
  | FRelease => KString
  | FForce => KBool
  | FStdout => KInterface
  | FStderr => KInterface
  end.

Definition tagEnvconfig (f : Field) : string :=
  match f with
  | FCommand => "HELM_COMMAND"
  | FDroneEvent => "DRONE_BUILD_EVENT"
  | FUpdateDependencies => ""
  | FAddRepos => "HELM_REPOS"
  | FPrefix => ""
  | FDebug => ""
  | FValues => ""
  | FStringValues => ""
  | FValuesFiles => ""
  | FNamespace => ""
  | FKubeToken => "KUBERNETES_TOKEN"
  | FSkipTLSVerify => "SKIP_TLS_VERIFY"
  | FCertificate => "KUBERNETES_CERTIFICATE"
  | FAPIServer => "API_SERVER"
  | FServiceAccount => ""
  | FChartVersion => ""
  | FDryRun => ""
  | FWait => ""
  | FReuseValues => ""
  | FTimeout => ""
  | FChart => ""
  | FRelease => ""
  | FForce => ""
  | FStdout => ""
  | FStderr => ""
  end.

Definition tagSplitWords (f : Field) : string :=
  match f with
  | FCommand => ""
  | FDroneEvent => ""
  | FUpdateDependencies => "true"
  | FAddRepos => ""
  | FPrefix => ""
  | FDebug => ""
  | FValues => ""
  | FStringValues => "true"
  | FValuesFiles => "true"
  | FNamespace => ""
  | FKubeToken => ""
  | FSkipTLSVerify => ""
  | FCertificate => ""
  | FAPIServer => ""
  | FServiceAccount => "true"
  | FChartVersion => "true"
  | FDryRun => "true"
  | FWait => ""
  | FReuseValues => "true"
  | FTimeout => ""
  | FChart => ""
  | FRelease => ""
  | FForce => ""
  | FStdout => ""
  | FStderr => ""
  end.

Definition tagIgnored (f : Field) : string :=
  match f with
  | FCommand => ""
  | FDroneEvent => ""
  | FUpdateDependencies => ""
  | FAddRepos => ""
  | FPrefix => ""
  | FDebug => ""
  | FValues => ""
  | FStringValues => ""
  | FValuesFiles => ""
  | FNamespace => ""
  | FKubeToken => ""
  | FSkipTLSVerify => ""
  | FCertificate => ""
  | FAPIServer => ""
  | FServiceAccount => ""
  | FChartVersion => ""
  | FDryRun => ""
  | FWait => ""
  | FReuseValues => ""
  | FTimeout => ""
  | FChart => ""
  | FRelease => ""
  | FForce => ""
  | FStdout => "true"
  | FStderr => "true"
  end.

Definition getField (f : Field) (c : Config) : Value :=
  match f with
  | FCommand => VString (Command c)
  | FDroneEvent => VString (DroneEvent c)
  | FUpdateDependencies => VBool (UpdateDependencies c)
  | FAddRepos => VStrings (AddRepos c)
  | FPrefix => VString (Prefix c)
  | FDebug => VBool (Debug c)
  | FValues => VString (Values c)
  | FStringValues => VString (StringValues c)
  | FValuesFiles => VStrings (ValuesFiles c)
  | FNamespace => VString (Namespace c)
  | FKubeToken => VString (KubeToken c)
  | FSkipTLSVerify => VBool (SkipTLSVerify c)
  | FCertificate => VString (Certificate c)
  | FAPIServer => VString (APIServer c)
  | FServiceAccount => VString (ServiceAccount c)
  | FChartVersion => VString (ChartVersion c)
  | FDryRun => VBool (DryRun c)
  | FWait => VBool (Wait c)
  | FReuseValues => VBool (ReuseValues c)
  | FTimeout => VString (Timeout c)
  | FChart => VString (Chart c)
  | FRelease => VString (Release c)
  | FForce => VBool (Force c)
  | FStdout => VWriter (Stdout c)
  | FStderr => VWriter (Stderr c)
  end.

Definition setField (f : Field) (v : Value) (c : Config) : Config :=
  match f, v with
  | FCommand, VString x =>
      mkConfig x (DroneEvent c) (UpdateDependencies c) (AddRepos c) (Prefix c) (Debug c)
        (Values c) (StringValues c) (ValuesFiles c) (Namespace c) (KubeToken c)
        (SkipTLSVerify c) (Certificate c) (APIServer c) (ServiceAccount c)
        (ChartVersion c) (DryRun c) (Wait c) (ReuseValues c) (Timeout c) (Chart c)
        (Release c) (Force c) (Stdout c) (Stderr c)
  | FDroneEvent, VString x =>
      mkConfig (Command c) x (UpdateDependencies c) (AddRepos c) (Prefix c) (Debug c)
        (Values c) (StringValues c) (ValuesFiles c) (Namespace c) (KubeToken c)
        (SkipTLSVerify c) (Certificate c) (APIServer c) (ServiceAccount c)
        (ChartVersion c) (DryRun c) (Wait c) (ReuseValues c) (Timeout c) (Chart c)
        (Release c) (Force c) (Stdout c) (Stderr c)
  | FUpdateDependencies, VBool x =>
      mkConfig (Command c) (DroneEvent c) x (AddRepos c) (Prefix c) (Debug c) (Values c)
        (StringValues c) (ValuesFiles c) (Namespace c) (KubeToken c) (SkipTLSVerify c)
        (Certificate c) (APIServer c) (ServiceAccount c) (ChartVersion c) (DryRun c)
        (Wait c) (ReuseValues c) (Timeout c) (Chart c) (Release c) (Force c) (Stdout c)
        (Stderr c)
  | FAddRepos, VStrings x =>
      mkConfig (Command c) (DroneEvent c) (UpdateDependencies c) x (Prefix c) (Debug c)
        (Values c) (StringValues c) (ValuesFiles c) (Namespace c) (KubeToken c)
        (SkipTLSVerify c) (Certificate c) (APIServer c) (ServiceAccount c)
        (ChartVersion c) (DryRun c) (Wait c) (ReuseValues c) (Timeout c) (Chart c)
        (Release c) (Force c) (Stdout c) (Stderr c)
  | FPrefix, VString x =>
      mkConfig (Command c) (DroneEvent c) (UpdateDependencies c) (AddRepos c) x
        (Debug c) (Values c) (StringValues c) (ValuesFiles c) (Namespace c)
        (KubeToken c) (SkipTLSVerify c) (Certificate c) (APIServer c) (ServiceAccount c)
        (ChartVersion c) (DryRun c) (Wait c) (ReuseValues c) (Timeout c) (Chart c)
        (Release c) (Force c) (Stdout c) (Stderr c)
  | FDebug, VBool x =>
      mkConfig (Command c) (DroneEvent c) (UpdateDependencies c) (AddRepos c) (Prefix c)
        x (Values c) (StringValues c) (ValuesFiles c) (Namespace c) (KubeToken c)
        (SkipTLSVerify c) (Certificate c) (APIServer c) (ServiceAccount c)
        (ChartVersion c) (DryRun c) (Wait c) (ReuseValues c) (Timeout c) (Chart c)
        (Release c) (Force c) (Stdout c) (Stderr c)
  | FValues, VString x =>
      mkConfig (Command c) (DroneEvent c) (UpdateDependencies c) (AddRepos c) (Prefix c)
        (Debug c) x (StringValues c) (ValuesFiles c) (Namespace c) (KubeToken c)
        (SkipTLSVerify c) (Certificate c) (APIServer c) (ServiceAccount c)
        (ChartVersion c) (DryRun c) (Wait c) (ReuseValues c) (Timeout c) (Chart c)
        (Release c) (Force c) (Stdout c) (Stderr c)
  | FStringValues, VString x =>
      mkConfig (Command c) (DroneEvent c) (UpdateDependencies c) (AddRepos c) (Prefix c)
        (Debug c) (Values c) x (ValuesFiles c) (Namespace c) (KubeToken c)
        (SkipTLSVerify c) (Certificate c) (APIServer c) (ServiceAccount c)
        (ChartVersion c) (DryRun c) (Wait c) (ReuseValues c) (Timeout c) (Chart c)
        (Release c) (Force c) (Stdout c) (Stderr c)
  | FValuesFiles, VStrings x =>
      mkConfig (Command c) (DroneEvent c) (UpdateDependencies c) (AddRepos c) (Prefix c)
        (Debug c) (Values c) (StringValues c) x (Namespace c) (KubeToken c)
        (SkipTLSVerify c) (Certificate c) (APIServer c) (ServiceAccount c)
        (ChartVersion c) (DryRun c) (Wait c) (ReuseValues c) (Timeout c) (Chart c)
        (Release c) (Force c) (Stdout c) (Stderr c)
  | FNamespace, VString x =>
      mkConfig (Command c) (DroneEvent c) (UpdateDependencies c) (AddRepos c) (Prefix c)
        (Debug c) (Values c) (StringValues c) (ValuesFiles c) x (KubeToken c)
        (SkipTLSVerify c) (Certificate c) (APIServer c) (ServiceAccount c)
        (ChartVersion c) (DryRun c) (Wait c) (ReuseValues c) (Timeout c) (Chart c)
        (Release c) (Force c) (Stdout c) (Stderr c)
  | FKubeToken, VString x =>
      mkConfig (Command c) (DroneEvent c) (UpdateDependencies c) (AddRepos c) (Prefix c)
        (Debug c) (Values c) (StringValues c) (ValuesFiles c) (Namespace c) x
        (SkipTLSVerify c) (Certificate c) (APIServer c) (ServiceAccount c)
        (ChartVersion c) (DryRun c) (Wait c) (ReuseValues c) (Timeout c) (Chart c)
        (Release c) (Force c) (Stdout c) (Stderr c)
  | FSkipTLSVerify, VBool x =>
      mkConfig (Command c) (DroneEvent c) (UpdateDependencies c) (AddRepos c) (Prefix c)
        (Debug c) (Values c) (StringValues c) (ValuesFiles c) (Namespace c)
        (KubeToken c) x (Certificate c) (APIServer c) (ServiceAccount c)
        (ChartVersion c) (DryRun c) (Wait c) (ReuseValues c) (Timeout c) (Chart c)
        (Release c) (Force c) (Stdout c) (Stderr c)
  | FCertificate, VString x =>
      mkConfig (Command c) (DroneEvent c) (UpdateDependencies c) (AddRepos c) (Prefix c)
        (Debug c) (Values c) (StringValues c) (ValuesFiles c) (Namespace c)
        (KubeToken c) (SkipTLSVerify c) x (APIServer c) (ServiceAccount c)
        (ChartVersion c) (DryRun c) (Wait c) (ReuseValues c) (Timeout c) (Chart c)
        (Release c) (Force c) (Stdout c) (Stderr c)
  | FAPIServer, VString x =>
      mkConfig (Command c) (DroneEvent c) (UpdateDependencies c) (AddRepos c) (Prefix c)
        (Debug c) (Values c) (StringValues c) (ValuesFiles c) (Namespace c)
        (KubeToken c) (SkipTLSVerify c) (Certificate c) x (ServiceAccount c)
        (ChartVersion c) (DryRun c) (Wait c) (ReuseValues c) (Timeout c) (Chart c)
        (Release c) (Force c) (Stdout c) (Stderr c)
  | FServiceAccount, VString x =>
      mkConfig (Command c) (DroneEvent c) (UpdateDependencies c) (AddRepos c) (Prefix c)
        (Debug c) (Values c) (StringValues c) (ValuesFiles c) (Namespace c)
        (KubeToken c) (SkipTLSVerify c) (Certificate c) (APIServer c) x (ChartVersion c)
        (DryRun c) (Wait c) (ReuseValues c) (Timeout c) (Chart c) (Release c) (Force c)
        (Stdout c) (Stderr c)
  | FChartVersion, VString x =>
      mkConfig (Command c) (DroneEvent c) (UpdateDependencies c) (AddRepos c) (Prefix c)
        (Debug c) (Values c) (StringValues c) (ValuesFiles c) (Namespace c)
        (KubeToken c) (SkipTLSVerify c) (Certificate c) (APIServer c) (ServiceAccount c)
        x (DryRun c) (Wait c) (ReuseValues c) (Timeout c) (Chart c) (Release c)
        (Force c) (Stdout c) (Stderr c)
  | FDryRun, VBool x =>
      mkConfig (Command c) (DroneEvent c) (UpdateDependencies c) (AddRepos c) (Prefix c)
        (Debug c) (Values c) (StringValues c) (ValuesFiles c) (Namespace c)
        (KubeToken c) (SkipTLSVerify c) (Certificate c) (APIServer c) (ServiceAccount c)
        (ChartVersion c) x (Wait c) (ReuseValues c) (Timeout c) (Chart c) (Release c)
        (Force c) (Stdout c) (Stderr c)
  | FWait, VBool x =>
      mkConfig (Command c) (DroneEvent c) (UpdateDependencies c) (AddRepos c) (Prefix c)
        (Debug c) (Values c) (StringValues c) (ValuesFiles c) (Namespace c)
        (KubeToken c) (SkipTLSVerify c) (Certificate c) (APIServer c) (ServiceAccount c)
        (ChartVersion c) (DryRun c) x (ReuseValues c) (Timeout c) (Chart c) (Release c)
        (Force c) (Stdout c) (Stderr c)
  | FReuseValues, VBool x =>
      mkConfig (Command c) (DroneEvent c) (UpdateDependencies c) (AddRepos c) (Prefix c)
        (Debug c) (Values c) (StringValues c) (ValuesFiles c) (Namespace c)
        (KubeToken c) (SkipTLSVerify c) (Certificate c) (APIServer c) (ServiceAccount c)
        (ChartVersion c) (DryRun c) (Wait c) x (Timeout c) (Chart c) (Release c)
        (Force c) (Stdout c) (Stderr c)
  | FTimeout, VString x =>
      mkConfig (Command c) (DroneEvent c) (UpdateDependencies c) (AddRepos c) (Prefix c)
        (Debug c) (Values c) (StringValues c) (ValuesFiles c) (Namespace c)
        (KubeToken c) (SkipTLSVerify c) (Certificate c) (APIServer c) (ServiceAccount c)
        (ChartVersion c) (DryRun c) (Wait c) (ReuseValues c) x (Chart c) (Release c)
        (Force c) (Stdout c) (Stderr c)
  | FChart, VString x =>
      mkConfig (Command c) (DroneEvent c) (UpdateDependencies c) (AddRepos c) (Prefix c)
        (Debug c) (Values c) (StringValues c) (ValuesFiles c) (Namespace c)
        (KubeToken c) (SkipTLSVerify c) (Certificate c) (APIServer c) (ServiceAccount c)
        (ChartVersion c) (DryRun c) (Wait c) (ReuseValues c) (Timeout c) x (Release c)
        (Force c) (Stdout c) (Stderr c)
  | FRelease, VString x =>
      mkConfig (Command c) (DroneEvent c) (UpdateDependencies c) (AddRepos c) (Prefix c)
        (Debug c) (Values c) (StringValues c) (ValuesFiles c) (Namespace c)
        (KubeToken c) (SkipTLSVerify c) (Certificate c) (APIServer c) (ServiceAccount c)
        (ChartVersion c) (DryRun c) (Wait c) (ReuseValues c) (Timeout c) (Chart c) x
        (Force c) (Stdout c) (Stderr c)
  | FForce, VBool x =>
      mkConfig (Command c) (DroneEvent c) (UpdateDependencies c) (AddRepos c) (Prefix c)
        (Debug c) (Values c) (StringValues c) (ValuesFiles c) (Namespace c)
        (KubeToken c) (SkipTLSVerify c) (Certificate c) (APIServer c) (ServiceAccount c)
        (ChartVersion c) (DryRun c) (Wait c) (ReuseValues c) (Timeout c) (Chart c)
        (Release c) x (Stdout c) (Stderr c)
  | FStdout, VWriter x =>
      mkConfig (Command c) (DroneEvent c) (UpdateDependencies c) (AddRepos c) (Prefix c)
        (Debug c) (Values c) (StringValues c) (ValuesFiles c) (Namespace c)
        (KubeToken c) (SkipTLSVerify c) (Certificate c) (APIServer c) (ServiceAccount c)
        (ChartVersion c) (DryRun c) (Wait c) (ReuseValues c) (Timeout c) (Chart c)
        (Release c) (Force c) x (Stderr c)
  | FStderr, VWriter x =>
      mkConfig (Command c) (DroneEvent c) (UpdateDependencies c) (AddRepos c) (Prefix c)
        (Debug c) (Values c) (StringValues c) (ValuesFiles c) (Namespace c)
        (KubeToken c) (SkipTLSVerify c) (Certificate c) (APIServer c) (ServiceAccount c)
        (ChartVersion c) (DryRun c) (Wait c) (ReuseValues c) (Timeout c) (Chart c)
        (Release c) (Force c) (Stdout c) x
  | _, _ => c
  end.

(** Equality of field identifiers is decidable. *)
Definition Field_eq_dec (f g : Field) : {f = g} + {f <> g}.
Proof. decide equality. Defined.

(** ** package envconfig

    github.com/kelseyhightower/envconfig (v1.4.0), the library [NewConfig]
    calls; not among the sources of the repository. [Process] works by
    reflection over the struct it is given: the definitions below are its
    code read at the type [Config], whose fields are strings, bools and
    slices of strings, with no default or required tags. *)

Module envconfig.

(** [isTrue]: a tag counts as set when [strconv.ParseBool] reads it as true. *)
Definition isTrue (s : string) : bool := fst (strconv.ParseBool s).

Definition nonEmpty (s : string) : bool := negb (String.eqb s "").

Definition startsUpper (s : string) : bool :=
  match s with
  | EmptyString => false
  | String d _ => strings.isUpper d
  end.

(** [gatherRegexp.FindAllStringSubmatch] with the pattern
    [([^A-Z]+|[A-Z]+[^A-Z]+|[A-Z]+)]: the name is cut before every upper-case
    letter that follows a character which is not one. *)
Fixpoint gatherWords (s : string) : list string :=
  match s with
  | EmptyString => []
  | String c s' =>
      match gatherWords s' with
      | [] => [String c EmptyString]
      | w :: ws =>
          if negb (strings.isUpper c) && startsUpper s'
          then String c EmptyString :: w :: ws
          else String c w :: ws
      end
  end.

(** The longest prefix of upper-case letters, and the rest. *)
Fixpoint upperRun (s : string) : string * string :=
  match s with
  | EmptyString => (EmptyString, EmptyString)
  | String c s' =>
      if strings.isUpper c
      then let (u, r) := upperRun s' in (String c u, r)
      else (EmptyString, s)
  end.

(** [acronymRegexp.FindStringSubmatch] with [([A-Z]+)([A-Z][^A-Z]+)] on one
    word of [gatherWords]: a run of two or more capitals followed by other
    characters gives up its last capital to what follows (HTTPServer is
    HTTP, Server). *)
Definition acronym (w : string) : list string :=
  let (u, r) := upperRun w in
  let n := String.length u in
  if (2 <=? n)%nat && nonEmpty r
  then [substring 0 (n - 1) u; substring (n - 1) 1 u ++ r]
  else [w].

Record varInfo : Type := mkVarInfo {
  Name : string;
  Alt : string;
  Key : string;
  Fld : Field
}.

(** The body of the loop of [gatherInfo] for one field of the struct. *)
Definition fieldInfo (prefix : string) (f : Field) : list varInfo :=
  if isTrue (tagIgnored f) then []
  else
    let alt := strings.ToUpper (tagEnvconfig f) in
    let key := fieldName f in
    let key :=
      if isTrue (tagSplitWords f)
      then match gatherWords (fieldName f) with
           | [] => key
           | words => strings.Join (flat_map acronym words) "_"
           end
      else key in
    let key := if nonEmpty alt then alt else key in
    let key := if nonEmpty prefix then prefix ++ "_" ++ key else key in
    [mkVarInfo (fieldName f) alt (strings.ToUpper key) f].

(** [gatherInfo(prefix, spec)] for [spec] of type [*Config]. *)
Definition gatherInfo (prefix : string) : list varInfo :=
  flat_map (fieldInfo prefix) structFields.

Definition typeName (k : Kind) : string :=
  match k with
  | KString => "string"
  | KBool => "bool"
  | KStrings => "[]string"
  | KInterface => "io.Writer"
  end.

(** [processField(value, field)] by the kind of the field: the value it sets,
    if any, and the error. The elements of a [[]string] are strings, whose
    own [processField] cannot fail. *)
Definition processField (value : string) (k : Kind)
  : option Value * option strconv.NumError :=
  match k with
  | KString => (Some (VString value), None)
  | KBool =>
      match strconv.ParseBool value with
      | (_, Some err) => (None, Some err)
      | (b, None) => (Some (VBool b), None)
      end
  | KStrings =>
      if nonEmpty (strings.TrimSpace value)
      then (Some (VStrings (strings.Split value ",")), None)
      else (Some (VStrings []), None)
  | KInterface => (None, None)
  end.

(** [*envconfig.ParseError] *)
Record ParseError : Type := mkParseError {
  KeyName : string;
  FieldName : string;
  TypeName : string;
  Value : string;
  Err : strconv.NumError
}.

(** The two look-ups at the head of the loop of [Process]: the key, then the
    name of the [envconfig] tag when the key is not set. *)
Definition lookupInfo (env : os.Environ) (info : varInfo) : option string :=
  match os.LookupEnv env (Key info) with
  | Some value => Some value
  | None => if nonEmpty (Alt info) then os.LookupEnv env (Alt info) else None
  end.

(** The loop of [Process] over the gathered infos; [spec] is written in
    place, so the fields set before a failure stay set. *)
Fixpoint processInfos (env : os.Environ) (infos : list varInfo) (spec : Config)
  : Config * option ParseError :=
  match infos with
  | [] => (spec, None)
  | info :: rest =>
      match lookupInfo env info with
      | None => processInfos env rest spec
      | Some value =>
          match processField value (fieldKind (Fld info)) with
          | (_, Some err) =>
              (spec, Some (mkParseError (Key info) (Name info)
                             (typeName (fieldKind (Fld info))) value err))
          | (Some v, None) => processInfos env rest (setField (Fld info) v spec)
          | (None, None) => processInfos env rest spec
          end
      end
  end.

(** [envconfig.Process(prefix, &spec)] *)
Definition Process (prefix : string) (env : os.Environ) (spec : Config)
  : Config * option ParseError :=
  processInfos env (gatherInfo prefix) spec.

End envconfig.

(** ** package fmt: [%+v] of a [Config]

    Go's standard library. *)

Module fmt.

Definition boolString (b : bool) : string := if b then "true" else "false".

(** A field's value under [%+v]: strings as they are, a slice between
    brackets with its elements separated by a space, a nil interface as
    [<nil>]. *)
Definition printValue (v : Value) : string :=
  match v with
  | VString s => s
  | VBool b => boolString b
  | VStrings l => "[" ++ strings.Join l " " ++ "]"
  | VWriter None => "<nil>"
  | VWriter (Some w) => shown w
  end.

Definition printField (c : Config) (f : Field) : string :=
  fieldName f ++ ":" ++ printValue (getField f c).

(** The struct under [%+v]: [{Name:value Name:value ...}] in the order of
    declaration. *)
Definition plusV (c : Config) : string :=
  "{" ++ strings.Join (map (printField c) structFields) " " ++ "}".

(** [fmt.Fprintf(w, ...)] hands the formatted text to [w.Write] in one call;
    on a nil [w] the call panics, and a panic of [w.Write] is not recovered.
    The result is the list of the calls of [Write] that returned. *)
Definition Fprintf (w : option Writer) (text : string)
  : Outcome (list (Writer * string)) :=
  match w with
  | None => Panic
  | Some w =>
      match Write w text with
      | Ret _ => Ret [(w, text)]
      | Panic => Panic
      end
  end.

End fmt.

(** ** package helm: [NewConfig] and [logDebug] *)

(** [var justNumbers = regexp.MustCompile(`^\d+$`)] *)
Definition justNumbers : regexp.Regexp :=
  regexp.Concat regexp.BeginText
    (regexp.Concat (regexp.PlusClass regexp.perlDigit) regexp.EndText).

Definition newline : string := String (ascii_of_nat 10) EmptyString.

(** [func (cfg Config) logDebug()]: the receiver is a copy of the caller's
    struct. The result is that copy as the method leaves it, and what was
    written. *)
Definition logDebug (cfg : Config) : Outcome (Config * list (Writer * string)) :=
  let cfg :=
    if envconfig.nonEmpty (KubeToken cfg)
    then setField FKubeToken (VString "(redacted)") cfg
    else cfg in
  match fmt.Fprintf (Stderr cfg) ("Generated config: " ++ fmt.plusV cfg ++ newline) with
  | Ret written => Ret (cfg, written)
  | Panic => Panic
  end.

(** [Config{Stdout: stdout, Stderr: stderr}]: every other field has the zero
    value of its type. *)
Definition newStruct (stdout stderr : option Writer) : Config :=
  mkConfig "" "" false [] "" false "" "" [] "" "" false "" "" "" "" false false false
    "" "" "" false stdout stderr.

(** Lines 52 to 66 of [NewConfig]: the three calls of [envconfig.Process]. *)
Definition readEnv (env : os.Environ) (cfg : Config)
  : Config * option envconfig.ParseError :=
  match envconfig.Process "plugin" env cfg with
  | (cfg, Some err) => (cfg, Some err)
  | (cfg, None) =>
      let prefix := Prefix cfg in
      match envconfig.Process "" env cfg with
      | (cfg, Some err) => (cfg, Some err)
      | (cfg, None) =>
          if envconfig.nonEmpty prefix
          then envconfig.Process (Prefix cfg) env cfg
          else (cfg, None)
      end
  end.

(** Lines 68 to 70: a timeout of digits only is read as seconds. *)
Definition inferSeconds (cfg : Config) : Config :=
  if regexp.MatchString justNumbers (Timeout cfg)
  then setField FTimeout (VString (Timeout cfg ++ "s")) cfg
  else cfg.

Definition isNil (w : option Writer) : bool :=
  match w with None => true | Some _ => false end.

(** [func NewConfig(stdout, stderr io.Writer)], which returns a [*Config]
    and an [error]. The process environment it reads is an argument, and
    the writes it performs are part of the result. *)
Definition NewConfig (env : os.Environ) (stdout stderr : option Writer)
  : Outcome (option Config * option envconfig.ParseError * list (Writer * string)) :=
  let cfg := newStruct stdout stderr in
  match readEnv env cfg with
  | (_, Some err) => Ret (None, Some err, [])
  | (cfg, None) =>
      let cfg := inferSeconds cfg in
      if Debug cfg && negb (isNil (Stderr cfg))
      then match logDebug cfg with
           | Ret (_, written) => Ret (Some cfg, None, written)
           | Panic => Panic
           end
      else Ret (Some cfg, None, [])
  end.

(** ** Vocabulary of the specification

    The notions the statements below are written in, each defined from the
    code above. *)

Definition kindOf (v : Value) : Kind :=
  match v with
  | VString _ => KString
  | VBool _ => KBool
  | VStrings _ => KStrings
  | VWriter _ => KInterface
  end.

(** The zero value of a kind: empty string, false, empty sequence, nil. *)
Definition zeroValue (k : Kind) : Value :=
  match k with
  | KString => VString ""
  | KBool => VBool false
  | KStrings => VStrings []
  | KInterface => VWriter None
  end.

(** The name of the variable a pass with [prefix] reads a field from, the
    second name it falls back to, and what the two look-ups of [Process]
    find for the field. A field that [gatherInfo] skips has none. *)
Definition envKey (prefix : string) (f : Field) : string :=
  match envconfig.fieldInfo prefix f with
  | info :: _ => envconfig.Key info
  | [] => ""
  end.

Definition envAlt (f : Field) : string :=
  match envconfig.fieldInfo "" f with
  | info :: _ => envconfig.Alt info
  | [] => ""
  end.

Definition lookupField (prefix : string) (env : os.Environ) (f : Field)
  : option string :=
  match envconfig.fieldInfo prefix f with
  | info :: _ => envconfig.lookupInfo env info
  | [] => None
  end.

(** [value] cannot be converted to the type of field [f]. *)
Definition coercionFails (f : Field) (value : string) : Prop :=
  snd (envconfig.processField value (fieldKind f)) <> None.


(** What a field holds after one pass, from what it held before. *)
Definition pick (f : Field) (value : string) (old : Value) : Value :=
  match envconfig.processField value (fieldKind f) with
  | (Some v, None) => v
  | _ => old
  end.

Definition passValue (env : os.Environ) (f : Field) (old : Value) (prefix : string)
  : Value :=
  match lookupField prefix env f with
  | Some value => pick f value old
  | None => old
  end.

(** The prefix field after pass 1, the prefix field after pass 2, and the
    prefixes of the passes that [NewConfig] runs, in order. *)
Definition pluginPrefix (env : os.Environ) : string :=
  match lookupField "plugin" env FPrefix with
  | Some value => value
  | None => ""
  end.

Definition thirdPrefix (env : os.Environ) : string :=
  match lookupField "" env FPrefix with
  | Some value => value
  | None => pluginPrefix env
  end.

Definition passes (env : os.Environ) : list string :=
  "plugin" :: "" ::
  (if envconfig.nonEmpty (pluginPrefix env) then [thirdPrefix env] else []).

(** Lines 80 to 82 of [logDebug], on the method's copy of the struct. *)
Definition redact (cfg : Config) : Config :=
  if envconfig.nonEmpty (KubeToken cfg)
  then setField FKubeToken (VString "(redacted)") cfg
  else cfg.

(** The line [logDebug] formats. *)
Definition debugLine (cfg : Config) : string :=
  "Generated config: " ++ fmt.plusV (redact cfg) ++ newline.

(** The call of [Write] that [NewConfig] makes for the record [cfg] panics:
    the debug flag is set, [stderr] is not nil and its [Write] panics on the
    debug line. *)
Definition debugPanics (stderr : option Writer) (cfg : Config) : bool :=
  Debug cfg &&
  match stderr with
  | Some w => match Write w (debugLine cfg) with Panic => true | Ret _ => false end
  | None => false
  end.

(** Every character of the string satisfies [p]; some character does. *)
Fixpoint allChars (p : ascii -> bool) (s : string) : bool :=
  match s with
  | EmptyString => true
  | String c s' => p c && allChars p s'
  end.

Fixpoint someChar (p : ascii -> bool) (s : string) : bool :=
  match s with
  | EmptyString => false
  | String c s' => p c || someChar p s'
  end.

(** A non-empty string of decimal digits only. *)
Definition digitsOnly (s : string) : bool :=
  envconfig.nonEmpty s && allChars regexp.perlDigit s.

(** The number of line feeds in a string. *)
Fixpoint lineFeeds (s : string) : nat :=
  match s with
  | EmptyString => 0
  | String c s' => (if Ascii.eqb c (ascii_of_nat 10) then 1 else 0) + lineFeeds s'
  end.

(** The fields declared before and after [KubeToken]. *)
Definition fieldsBeforeToken : list Field :=
  [ FCommand; FDroneEvent; FUpdateDependencies; FAddRepos; FPrefix; FDebug;
    FValues; FStringValues; FValuesFiles; FNamespace ].

Definition fieldsAfterToken : list Field :=
  [ FSkipTLSVerify; FCertificate; FAPIServer; FServiceAccount; FChartVersion;
    FDryRun; FWait; FReuseValues; FTimeout; FChart; FRelease; FForce;
    FStdout; FStderr ].

(** The debug line with [token] printed as the value of [KubeToken] and
    every other field printed from [cfg]. *)
Definition lineShowing (cfg : Config) (token : string) : string :=
  "Generated config: " ++
  ("{" ++ strings.Join (map (fmt.printField cfg) fieldsBeforeToken ++
                        ["KubeToken:" ++ token] ++
                        map (fmt.printField cfg) fieldsAfterToken) " " ++ "}") ++
  newline.

(** The same letters up to case. *)
Definition sameFold (s t : string) : bool :=
  String.eqb (strings.ToUpper s) (strings.ToUpper t).

(** The loop of [Process] over the infos of the fields [fs] only. *)
Definition processFields (prefix : string) (env : os.Environ) (fs : list Field)
                         (c : Config) : Config * option envconfig.ParseError :=
  envconfig.processInfos env (flat_map (envconfig.fieldInfo prefix) fs) c.

(** Closes a goal [~ In x l] for a list of constructors that differ from [x]. *)
Ltac not_among :=
  simpl; let Hin := fresh "Hin" in
  intro Hin; repeat (destruct Hin as [Hin | Hin]; [ discriminate Hin | ]); exact Hin.

(** ** package syscall: changing the environment

    Go's standard library; [os.Setenv] and [os.Unsetenv] are these two
    functions with the error wrapped. *)

Module syscall.

Fixpoint hasByte (p : ascii -> bool) (s : string) : bool :=
  match s with
  | EmptyString => false
  | String c s' => p c || hasByte p s'
  end.

Definition isNUL (c : ascii) : bool := (N_of_ascii c =? 0)%N.

Definition isEqualsOrNUL (c : ascii) : bool :=
  (N_of_ascii c =? 61)%N || isNUL c.

(** The checks at the head of [Setenv]: a key is not empty and holds
    neither [=] nor a NUL byte; a value holds no NUL byte. *)
Definition validKey (key : string) : bool :=
  negb (String.eqb key "") && negb (hasByte isEqualsOrNUL key).

Definition validValue (value : string) : bool := negb (hasByte isNUL value).

(** The entries of the environment other than those of [key]. *)
Definition remove (key : string) (env : os.Environ) : os.Environ :=
  filter (fun entry => negb (String.eqb (fst entry) key)) env.

(** [Setenv(key, value)]: the new environment and whether the call fails
    with EINVAL, in which case nothing is changed. *)
Definition Setenv (key value : string) (env : os.Environ) : os.Environ * bool :=
  if validKey key && validValue value
  then ((key, value) :: remove key env, false)
  else (env, true).

(** [Unsetenv(key)] *)
Definition Unsetenv (key : string) (env : os.Environ) : os.Environ :=
  remove key env.

End syscall.

(** ** package helm, the test suite: [setenv], [unsetenv], [BeforeTest],
    [AfterTest]

    The methods of [ConfigTestSuite] work on the process environment and on
    the map [envBackup] of the suite. *)

Module ConfigTestSuite.

(** The process environment and [suite.envBackup], a [map[string]*string]:
    its entries, one per key; a nil pointer is [None]. *)
Record State : Type := mkState {
  environ : os.Environ;
  envBackup : list (string * option string)
}.

(** [m[key] = val] *)
Definition store (key : string) (val : option string)
                 (m : list (string * option string)) : list (string * option string) :=
  (key, val) :: filter (fun entry => negb (String.eqb (fst entry) key)) m.

(** [suite.setenv(key, val)]; the error of [os.Setenv] is dropped. *)
Definition setenv (key val : string) (st : State) : State :=
  let orig := os.LookupEnv (environ st) key in
  mkState (fst (syscall.Setenv key val (environ st)))
          (store key orig (envBackup st)).

(** [suite.unsetenv(key)] *)
Definition unsetenv (key : string) (st : State) : State :=
  let orig := os.LookupEnv (environ st) key in
  mkState (syscall.Unsetenv key (environ st))
          (store key orig (envBackup st)).

(** [suite.BeforeTest]: a fresh, empty map. *)
Definition BeforeTest (st : State) : State := mkState (environ st) [].

(** The body of the loop of [AfterTest] for one entry of the map. *)
Definition restore (env : os.Environ) (entry : string * option string) : os.Environ :=
  match snd entry with
  | None => syscall.Unsetenv (fst entry) env
  | Some val => fst (syscall.Setenv (fst entry) val env)
  end.

(** [suite.AfterTest], with the entries of the map in the order [order] in
    which [range] happens to visit them; [AfterTest] visits them as the
    list holds them. *)
Definition AfterTestIn (order : list (string * option string)) (st : State) : State :=
  mkState (fold_left restore order (environ st)) (envBackup st).

Definition AfterTest (st : State) : State := AfterTestIn (envBackup st) st.

(** The calls a test makes before it builds the configuration. *)
Inductive Step : Type :=
| DoSetenv (key val : string)
| DoUnsetenv (key : string).

Definition stepKey (s : Step) : string :=
  match s with
  | DoSetenv key _ => key
  | DoUnsetenv key => key
  end.

Definition step (st : State) (s : Step) : State :=
  match s with
  | DoSetenv key val => setenv key val st
  | DoUnsetenv key => unsetenv key st
  end.

Definition steps (l : list Step) (st : State) : State := fold_left step l st.

End ConfigTestSuite.

(** An environment as a process has it: every entry has a key and a value
    that [Setenv] would accept. *)
Definition wellFormed (env : os.Environ) : Prop :=
  forall key value, In (key, value) env ->
    syscall.validKey key = true /\ syscall.validValue value = true.

(** What [AfterTest] can restore: a saved value is one [Setenv] accepts. *)
Definition restorable (m : list (string * option string)) : Prop :=
  forall key value, In (key, Some value) m ->
    syscall.validKey key = true /\ syscall.validValue value = true.

(** What every state reached from [BeforeTest] satisfies. *)
Definition sound (st : ConfigTestSuite.State) : Prop :=
  wellFormed (ConfigTestSuite.environ st) /\ NoDup (map fst (ConfigTestSuite.envBackup st)) /\
  restorable (ConfigTestSuite.envBackup st).

(** The prefix of the last pass that [NewConfig] runs. *)
Definition lastPass (env : os.Environ) : string := last (passes env) "".

(** In the pass with [prefix], what is found for field [f], if anything,
    can be converted to its type. *)
Definition convertible (prefix : string) (env : os.Environ) (f : Field) : Prop :=
  forall value, lookupField prefix env f = Some value -> ~ coercionFails f value.

(** The calls of [setenv] and [unsetenv] at the head of two of the tests,
    and the environment [NewConfig] then reads, from the environment
    [env0] the test process was started in. *)
Definition setupMustHavePluginPrefix : list ConfigTestSuite.Step :=
  [ ConfigTestSuite.DoUnsetenv "PLUGIN_PREFIX";
    ConfigTestSuite.DoSetenv "PREFIX" "refpix";
    ConfigTestSuite.DoSetenv "HELM_COMMAND" "gimme more";
    ConfigTestSuite.DoSetenv "REFPIX_HELM_COMMAND" "gimme less" ].

Definition setupConfigurablePrefix : list ConfigTestSuite.Step :=
  [ ConfigTestSuite.DoUnsetenv "API_SERVER";
    ConfigTestSuite.DoUnsetenv "PLUGIN_API_SERVER";
    ConfigTestSuite.DoSetenv "PLUGIN_PREFIX" "prix_fixe";
    ConfigTestSuite.DoSetenv "PRIX_FIXE_API_SERVER" "your waiter this evening" ].

Definition testEnv (setup : list ConfigTestSuite.Step) (env0 : os.Environ)
  : os.Environ :=
  ConfigTestSuite.environ
    (ConfigTestSuite.steps setup
       (ConfigTestSuite.BeforeTest (ConfigTestSuite.mkState env0 []))).

(** * Properties *)

(** ** The struct: reading and writing fields *)

Lemma getField_kind (f : Field) (c : Config) : kindOf (getField f c) = fieldKind f.
Proof. destruct f; reflexivity. Qed.

Lemma getField_setField_same (f : Field) (v : Value) (c : Config) :
  kindOf v = fieldKind f -> getField f (setField f v c) = v.
Proof. destruct f, v; simpl; intro H; try discriminate H; reflexivity. Qed.

Lemma getField_setField_other (f g : Field) (v : Value) (c : Config) :
  f <> g -> getField g (setField f v c) = getField g c.
Proof.
  intro H; destruct f, v; try reflexivity; destruct g; try reflexivity;
    exfalso; apply H; reflexivity.
Qed.

Lemma structFields_all (f : Field) : In f structFields.
Proof. destruct f; simpl; tauto. Qed.

Lemma structFields_NoDup : NoDup structFields.
Proof.
  unfold structFields; repeat (constructor; [ not_among | ]); constructor.
Qed.

(** ** One pass of [envconfig.Process], field by field *)

Section OnePass.

Variable prefix : string.
Variable env : os.Environ.

Lemma fieldInfo_shape (f : Field) :
  envconfig.fieldInfo prefix f =
  if envconfig.isTrue (tagIgnored f) then []
  else [envconfig.mkVarInfo (fieldName f) (envAlt f) (envKey prefix f) f].
Proof.
  unfold envKey, envAlt, envconfig.fieldInfo.
  destruct (envconfig.isTrue (tagIgnored f)); reflexivity.
Qed.

Lemma lookupField_eq (f : Field) :
  lookupField prefix env f =
  if envconfig.isTrue (tagIgnored f) then None
  else match os.LookupEnv env (envKey prefix f) with
       | Some value => Some value
       | None => if envconfig.nonEmpty (envAlt f)
                 then os.LookupEnv env (envAlt f) else None
       end.
Proof.
  unfold lookupField. rewrite fieldInfo_shape.
  destruct (envconfig.isTrue (tagIgnored f)); reflexivity.
Qed.

Lemma processFields_cons (f : Field) (fs : list Field) (c : Config) :
  processFields prefix env (f :: fs) c =
  match lookupField prefix env f with
  | None => processFields prefix env fs c
  | Some value =>
      match envconfig.processField value (fieldKind f) with
      | (_, Some err) =>
          (c, Some (envconfig.mkParseError (envKey prefix f) (fieldName f)
                      (envconfig.typeName (fieldKind f)) value err))
      | (Some v, None) => processFields prefix env fs (setField f v c)
      | (None, None) => processFields prefix env fs c
      end
  end.
Proof.
  unfold processFields, lookupField. simpl flat_map. rewrite fieldInfo_shape.
  destruct (envconfig.isTrue (tagIgnored f)); reflexivity.
Qed.

Lemma processField_kind (value : string) (k : Kind) (v : Value) :
  envconfig.processField value k = (Some v, None) -> kindOf v = k.
Proof.
  destruct k; unfold envconfig.processField.
  - intro H; injection H as <-; reflexivity.
  - destruct (strconv.ParseBool value) as [b [e|]]; intro H;
      [ discriminate H | injection H as <-; reflexivity ].
  - destruct (envconfig.nonEmpty (strings.TrimSpace value)); intro H;
      injection H as <-; reflexivity.
  - discriminate.
Qed.

Lemma processFields_values (fs : list Field) :
  NoDup fs ->
  forall c c', processFields prefix env fs c = (c', None) ->
  forall f, getField f c' =
            if in_dec Field_eq_dec f fs then passValue env f (getField f c) prefix
            else getField f c.
Proof.
  induction 1 as [| g fs Hg Hnd IH]; intros c c' Hrun f.
  - injection Hrun as <-. reflexivity.
  - rewrite processFields_cons in Hrun.
    assert (Hstep : forall cg, processFields prefix env fs cg = (c', None) ->
              getField g cg = passValue env g (getField g c) prefix ->
              (forall h, h <> g -> getField h cg = getField h c) ->
              getField f c' =
              if in_dec Field_eq_dec f (g :: fs)
              then passValue env f (getField f c) prefix else getField f c).
    { intros cg Hcg Hsame Hother. rewrite (IH _ _ Hcg f).
      destruct (Field_eq_dec f g) as [-> | Hne].
      - destruct (in_dec Field_eq_dec g fs) as [Hin | _]; [ contradiction | ].
        destruct (in_dec Field_eq_dec g (g :: fs)) as [_ | Hout];
          [ exact Hsame | exfalso; apply Hout; left; reflexivity ].
      - rewrite (Hother f Hne). unfold passValue.
        destruct (in_dec Field_eq_dec f fs) as [Hin | Hout];
          destruct (in_dec Field_eq_dec f (g :: fs)) as [Hin' | Hout']; try reflexivity.
        + exfalso; apply Hout'; right; exact Hin.
        + destruct Hin' as [Heq | Hin']; [ congruence | contradiction ]. }
    unfold passValue at 1 in Hstep. unfold pick in Hstep.
    destruct (lookupField prefix env g) as [value |].
    + destruct (envconfig.processField value (fieldKind g)) as [[v |] [err |]] eqn:Hpf;
        try discriminate Hrun.
      * apply (Hstep _ Hrun).
        -- apply getField_setField_same. exact (processField_kind _ _ _ Hpf).
        -- intros h Hh. apply getField_setField_other. congruence.
      * apply (Hstep _ Hrun); [ reflexivity | reflexivity ].
    + apply (Hstep _ Hrun); reflexivity.
Qed.


Lemma processFields_fails (fs : list Field) (f : Field) (value : string) :
  In f fs -> lookupField prefix env f = Some value -> coercionFails f value ->
  forall c, exists c' e, processFields prefix env fs c = (c', Some e).
Proof.
  intros Hin Hlk Hbad. induction fs as [| g fs IH]; intro c; [ destruct Hin | ].
  rewrite processFields_cons.
  destruct (lookupField prefix env g) as [gv |] eqn:Hg.
  - destruct (envconfig.processField gv (fieldKind g)) as [[v |] [err |]] eqn:Hpf;
      try (eexists; eexists; reflexivity);
      (destruct Hin as [-> | Hin];
       [ exfalso; rewrite Hlk in Hg; injection Hg as ->;
         apply Hbad; rewrite Hpf; reflexivity
       | apply (IH Hin) ]).
  - destruct Hin as [-> | Hin]; [ congruence | apply (IH Hin) ].
Qed.

End OnePass.

Lemma Process_values (prefix : string) (env : os.Environ) (c c' : Config) :
  envconfig.Process prefix env c = (c', None) ->
  forall f, getField f c' = passValue env f (getField f c) prefix.
Proof.
  intros H f. 
  rewrite (processFields_values prefix env structFields structFields_NoDup c c' H f).
  destruct (in_dec Field_eq_dec f structFields) as [_ | Hout];
    [ reflexivity | exfalso; apply Hout, structFields_all ].
Qed.


Lemma Process_fails (prefix : string) (env : os.Environ) (f : Field) (value : string) :
  lookupField prefix env f = Some value -> coercionFails f value ->
  forall c, exists c' e, envconfig.Process prefix env c = (c', Some e).
Proof. apply processFields_fails, structFields_all. Qed.

(** ** The three passes of [NewConfig] *)

Lemma pick_string (f : Field) (value : string) (old : Value) :
  fieldKind f = KString -> pick f value old = VString value.
Proof. unfold pick; intros ->; reflexivity. Qed.

Lemma Prefix_passValue (env : os.Environ) (c c' : Config) (prefix : string) :
  envconfig.Process prefix env c = (c', None) ->
  Prefix c' = match lookupField prefix env FPrefix with
              | Some value => value
              | None => Prefix c
              end.
Proof.
  intro H. pose proof (Process_values _ _ _ _ H FPrefix) as HP.
  unfold passValue in HP.
  destruct (lookupField prefix env FPrefix) as [value |].
  - rewrite pick_string in HP by reflexivity. simpl in HP. congruence.
  - simpl in HP. congruence.
Qed.

Section ThreePasses.

Variable env : os.Environ.
Variables stdout stderr : option Writer.

Lemma readEnv_steps (c : Config) (r : option envconfig.ParseError) :
  readEnv env (newStruct stdout stderr) = (c, r) ->
  (r <> None /\ envconfig.Process "plugin" env (newStruct stdout stderr) = (c, r)) \/
  exists c1, envconfig.Process "plugin" env (newStruct stdout stderr) = (c1, None) /\
             Prefix c1 = pluginPrefix env /\
    ((r <> None /\ envconfig.Process "" env c1 = (c, r)) \/
     exists c2, envconfig.Process "" env c1 = (c2, None) /\
                Prefix c2 = thirdPrefix env /\
       if envconfig.nonEmpty (pluginPrefix env)
       then envconfig.Process (thirdPrefix env) env c2 = (c, r)
       else c = c2 /\ r = None).
Proof.
  unfold readEnv.
  destruct (envconfig.Process "plugin" env (newStruct stdout stderr)) as [c1 [e1 |]] eqn:H1.
  - intro H; injection H as <- <-. left. split; [ discriminate | reflexivity ].
  - assert (HP1 : Prefix c1 = pluginPrefix env).
    { rewrite (Prefix_passValue _ _ _ _ H1). reflexivity. }
    intro H. right. exists c1. split; [ reflexivity | ]. split; [ exact HP1 | ].
    destruct (envconfig.Process "" env c1) as [c2 [e2 |]] eqn:H2.
    + injection H as <- <-. left. split; [ discriminate | reflexivity ].
    + assert (HP2 : Prefix c2 = thirdPrefix env).
      { rewrite (Prefix_passValue _ _ _ _ H2). unfold thirdPrefix.
        rewrite HP1. reflexivity. }
      right. exists c2. split; [ reflexivity | ]. split; [ exact HP2 | ].
      rewrite HP1, HP2 in H.
      destruct (envconfig.nonEmpty (pluginPrefix env)).
      * exact H.
      * injection H as <- <-. split; reflexivity.
Qed.

Lemma readEnv_values (c : Config) :
  readEnv env (newStruct stdout stderr) = (c, None) ->
  forall f, getField f c =
            fold_left (passValue env f) (passes env)
                      (getField f (newStruct stdout stderr)).
Proof.
  intros H f. unfold passes.
  destruct (readEnv_steps _ _ H) as [[Hr _] | [c1 [H1 [_ [[Hr _] | [c2 [H2 [_ H3]]]]]]]];
    try (exfalso; apply Hr; reflexivity).
  destruct (envconfig.nonEmpty (pluginPrefix env)); simpl fold_left.
  - rewrite (Process_values _ _ _ _ H3), (Process_values _ _ _ _ H2),
      (Process_values _ _ _ _ H1). reflexivity.
  - destruct H3 as [-> _].
    rewrite (Process_values _ _ _ _ H2), (Process_values _ _ _ _ H1). reflexivity.
Qed.


Lemma readEnv_fails (prefix : string) (f : Field) (value : string) :
  In prefix (passes env) ->
  lookupField prefix env f = Some value -> coercionFails f value ->
  exists c e, readEnv env (newStruct stdout stderr) = (c, Some e).
Proof.
  intros Hin Hlk Hbad.
  destruct (readEnv env (newStruct stdout stderr)) as [c [e |]] eqn:H;
    [ exists c, e; reflexivity | exfalso ].
  destruct (readEnv_steps _ _ H) as [[Hr _] | [c1 [H1 [_ [[Hr _] | [c2 [H2 [_ H3]]]]]]]];
    try (apply Hr; reflexivity).
  unfold passes in Hin.
  destruct Hin as [<- | [<- | Hin]].
  - destruct (Process_fails _ _ _ _ Hlk Hbad (newStruct stdout stderr)) as [c' [e' He]]. congruence.
  - destruct (Process_fails _ _ _ _ Hlk Hbad c1) as [c' [e' He]]. congruence.
  - destruct (envconfig.nonEmpty (pluginPrefix env)); [ | destruct Hin ].
    destruct Hin as [<- | []].
    destruct (Process_fails _ _ _ _ Hlk Hbad c2) as [c' [e' He]]. congruence.
Qed.

End ThreePasses.

(** ** The pattern [^\d+$] *)

Lemma plusFrom_to_end (p : ascii -> bool) (s : string) :
  regexp.plusFrom p s (fun r => match r with EmptyString => true | _ => false end) =
  envconfig.nonEmpty s && allChars p s.
Proof.
  induction s as [| c s IH]; [ reflexivity | ].
  simpl regexp.plusFrom. simpl allChars.
  destruct (p c); [ | reflexivity ].
  rewrite IH. destruct s; [ reflexivity | ].
  simpl. rewrite orb_false_r. reflexivity.
Qed.

Lemma justNumbers_not_later (s : string) :
  regexp.searchFrom justNumbers false s = false.
Proof. induction s as [| c s IH]; [ reflexivity | simpl; exact IH ]. Qed.

Lemma justNumbers_digitsOnly (s : string) :
  regexp.MatchString justNumbers s = digitsOnly s.
Proof.
  unfold regexp.MatchString, digitsOnly.
  destruct s as [| c s].
  - reflexivity.
  - change (regexp.searchFrom justNumbers true (String c s))
      with (regexp.plusFrom regexp.perlDigit (String c s)
              (fun r => match r with EmptyString => true | _ => false end)
            || regexp.searchFrom justNumbers false s).
    rewrite justNumbers_not_later, orb_false_r. apply plusFrom_to_end.
Qed.

Lemma someChar_not_all (p : ascii -> bool) (s : string) :
  someChar (fun c => negb (p c)) s = true -> allChars p s = false.
Proof.
  induction s as [| c s IH]; simpl; [ discriminate | ].
  destruct (p c); simpl; [ exact IH | reflexivity ].
Qed.

(** ** Lines 68 to 77 of [NewConfig] *)

Lemma inferSeconds_Timeout (c : Config) :
  Timeout (inferSeconds c) =
  if digitsOnly (Timeout c) then Timeout c ++ "s" else Timeout c.
Proof.
  unfold inferSeconds. rewrite justNumbers_digitsOnly.
  destruct (digitsOnly (Timeout c)); reflexivity.
Qed.

Lemma inferSeconds_other (c : Config) (f : Field) :
  f <> FTimeout -> getField f (inferSeconds c) = getField f c.
Proof.
  intro H. unfold inferSeconds.
  destruct (regexp.MatchString justNumbers (Timeout c)); [ | reflexivity ].
  apply getField_setField_other. congruence.
Qed.

Lemma redact_other (c : Config) (f : Field) :
  f <> FKubeToken -> getField f (redact c) = getField f c.
Proof.
  intro H. unfold redact.
  destruct (envconfig.nonEmpty (KubeToken c)); [ | reflexivity ].
  apply getField_setField_other. congruence.
Qed.

Lemma logDebug_eq (c : Config) :
  logDebug c =
  match Stderr c with
  | Some w =>
      match Write w (debugLine c) with
      | Ret _ => Ret (redact c, [(w, debugLine c)])
      | Panic => Panic
      end
  | None => Panic
  end.
Proof.
  unfold logDebug, debugLine. fold (redact c).
  assert (H : Stderr (redact c) = Stderr c).
  { pose proof (redact_other c FStderr) as H. simpl in H.
    assert (Hne : FStderr <> FKubeToken) by discriminate.
    specialize (H Hne). congruence. }
  rewrite H. destruct (Stderr c) as [w |]; [ | reflexivity ].
  unfold fmt.Fprintf.
  destruct (Write w ("Generated config: " ++ fmt.plusV (redact c) ++ newline));
    reflexivity.
Qed.

Lemma fold_passValue_unset (env : os.Environ) (f : Field) (l : list string) (old : Value) :
  (forall prefix, In prefix l -> lookupField prefix env f = None) ->
  fold_left (passValue env f) l old = old.
Proof.
  revert old. induction l as [| p l IH]; intros old H; [ reflexivity | ].
  simpl. unfold passValue at 2. rewrite (H p (or_introl eq_refl)).
  apply IH. intros q Hq. apply H. right. exact Hq.
Qed.

Lemma lookupField_ignored (prefix : string) (env : os.Environ) (f : Field) :
  fieldKind f = KInterface -> lookupField prefix env f = None.
Proof. destruct f; try discriminate; reflexivity. Qed.

Lemma readEnv_writers (env : os.Environ) (stdout stderr : option Writer) (c : Config) :
  readEnv env (newStruct stdout stderr) = (c, None) ->
  Stdout c = stdout /\ Stderr c = stderr.
Proof.
  intro H.
  pose proof (readEnv_values _ _ _ _ H FStdout) as H1.
  pose proof (readEnv_values _ _ _ _ H FStderr) as H2.
  rewrite fold_passValue_unset in H1, H2
    by (intros; apply lookupField_ignored; reflexivity).
  simpl in H1, H2. split; congruence.
Qed.

(** What [NewConfig] writes once the environment is read into [cfg]. *)
Lemma NewConfig_error (env : os.Environ) (stdout stderr : option Writer)
      (c : Config) (e : envconfig.ParseError) :
  readEnv env (newStruct stdout stderr) = (c, Some e) ->
  NewConfig env stdout stderr = Ret (None, Some e, []).
Proof. unfold NewConfig. intros ->. reflexivity. Qed.

Lemma NewConfig_ok (env : os.Environ) (stdout stderr : option Writer) (c : Config) :
  readEnv env (newStruct stdout stderr) = (c, None) ->
  NewConfig env stdout stderr =
  if debugPanics stderr (inferSeconds c) then Panic
  else Ret (Some (inferSeconds c), None,
            match stderr with
            | Some w =>
                if Debug (inferSeconds c) then [(w, debugLine (inferSeconds c))] else []
            | None => []
            end).
Proof.
  intro H. unfold NewConfig, debugPanics. rewrite H.
  assert (Hw : Stderr (inferSeconds c) = stderr).
  { pose proof (inferSeconds_other c FStderr) as Hi. simpl in Hi.
    assert (Hne : FStderr <> FTimeout) by discriminate.
    specialize (Hi Hne). destruct (readEnv_writers _ _ _ _ H) as [_ Hs]. congruence. }
  rewrite logDebug_eq, Hw.
  destruct stderr as [w |]; destruct (Debug (inferSeconds c)); try reflexivity.
  simpl. destruct (Write w (debugLine (inferSeconds c))); reflexivity.
Qed.

Lemma NewConfig_panics (env : os.Environ) (stdout stderr : option Writer) :
  NewConfig env stdout stderr = Panic <->
  exists w c,
    stderr = Some w /\ readEnv env (newStruct stdout stderr) = (c, None) /\
    Debug (inferSeconds c) = true /\ Write w (debugLine (inferSeconds c)) = Panic.
Proof.
  destruct (readEnv env (newStruct stdout stderr)) as [c [e |]] eqn:Hr.
  - rewrite (NewConfig_error _ _ _ _ _ Hr). split; [ discriminate | ].
    intros [w [c' [_ [H _]]]]. discriminate H.
  - rewrite (NewConfig_ok _ _ _ _ Hr). unfold debugPanics. split.
    + destruct (Debug (inferSeconds c)) eqn:Hd; [ | discriminate ].
      destruct stderr as [w |]; [ | discriminate ].
      destruct (Write w (debugLine (inferSeconds c))) eqn:Hw; [ discriminate | ].
      intros _. exists w, c. auto.
    + intros [w [c' [-> [Hc [Hd Hw]]]]]. injection Hc as <-.
      rewrite Hd, Hw. reflexivity.
Qed.

(** ** The names of the variables *)

Example variable_suffixes :
  map (envKey "") structFields =
  [ "HELM_COMMAND"; "DRONE_BUILD_EVENT"; "UPDATE_DEPENDENCIES"; "HELM_REPOS";
    "PREFIX"; "DEBUG"; "VALUES"; "STRING_VALUES"; "VALUES_FILES"; "NAMESPACE";
    "KUBERNETES_TOKEN"; "SKIP_TLS_VERIFY"; "KUBERNETES_CERTIFICATE"; "API_SERVER";
    "SERVICE_ACCOUNT"; "CHART_VERSION"; "DRY_RUN"; "WAIT"; "REUSE_VALUES";
    "TIMEOUT"; "CHART"; "RELEASE"; "FORCE"; ""; "" ].
Proof. reflexivity. Qed.

Example fallback_names :
  filter envconfig.nonEmpty (map envAlt structFields) =
  [ "HELM_COMMAND"; "DRONE_BUILD_EVENT"; "HELM_REPOS"; "KUBERNETES_TOKEN";
    "SKIP_TLS_VERIFY"; "KUBERNETES_CERTIFICATE"; "API_SERVER" ].
Proof. reflexivity. Qed.

Example split_words_acronym :
  flat_map envconfig.acronym (envconfig.gatherWords "HTTPServerURL") =
  [ "HTTP"; "Server"; "URL" ].
Proof. reflexivity. Qed.

(** ** The tests of the repository, replayed on the model

    Each test sets some variables and passes two empty [strings.Builder]s,
    which [fmt] prints as the empty string. *)

Example TestNewConfigWithPluginPrefix :
  let env := [("PLUGIN_HELM_COMMAND", "execute order 66");
              ("PLUGIN_UPDATE_DEPENDENCIES", "true"); ("PLUGIN_DEBUG", "true")] in
  exists cfg out,
    NewConfig env (Some (mkWriter 1 "")) (Some (mkWriter 2 "")) = Ret (Some cfg, None, out) /\
    Command cfg = "execute order 66" /\ UpdateDependencies cfg = true /\
    Debug cfg = true.
Proof.
  intro env. eexists. eexists. split; [ vm_compute; reflexivity | ].
  repeat split; reflexivity.
Qed.

Example TestNewConfigWithNoPrefix :
  let env := [("HELM_COMMAND", "execute order 66");
              ("UPDATE_DEPENDENCIES", "true"); ("DEBUG", "true")] in
  exists cfg out,
    NewConfig env (Some (mkWriter 1 "")) (Some (mkWriter 2 "")) = Ret (Some cfg, None, out) /\
    Command cfg = "execute order 66" /\ UpdateDependencies cfg = true /\
    Debug cfg = true.
Proof.
  intro env. eexists. eexists. split; [ vm_compute; reflexivity | ].
  repeat split; reflexivity.
Qed.

Example TestNewConfigWithConfigurablePrefix :
  let env := [("PLUGIN_PREFIX", "prix_fixe");
              ("PRIX_FIXE_API_SERVER", "your waiter this evening")] in
  exists cfg out,
    NewConfig env (Some (mkWriter 1 "")) (Some (mkWriter 2 "")) = Ret (Some cfg, None, out) /\
    Prefix cfg = "prix_fixe" /\ APIServer cfg = "your waiter this evening".
Proof.
  intro env. eexists. eexists. split; [ vm_compute; reflexivity | ].
  repeat split; reflexivity.
Qed.

Example TestPrefixSettingDoesNotAffectPluginPrefix :
  let env := [("PLUGIN_PREFIX", "IXFREP"); ("PLUGIN_HELM_COMMAND", "wake me up");
              ("IXFREP_PLUGIN_HELM_COMMAND", "send me to sleep inside")] in
  exists cfg out,
    NewConfig env (Some (mkWriter 1 "")) (Some (mkWriter 2 "")) = Ret (Some cfg, None, out) /\
    Command cfg = "wake me up".
Proof.
  intro env. eexists. eexists. split; [ vm_compute; reflexivity | reflexivity ].
Qed.

Example TestPrefixSettingMustHavePluginPrefix :
  let env := [("PREFIX", "refpix"); ("HELM_COMMAND", "gimme more");
              ("REFPIX_HELM_COMMAND", "gimme less")] in
  exists cfg out,
    NewConfig env (Some (mkWriter 1 "")) (Some (mkWriter 2 "")) = Ret (Some cfg, None, out) /\
    Command cfg = "gimme more".
Proof.
  intro env. eexists. eexists. split; [ vm_compute; reflexivity | reflexivity ].
Qed.

Example TestNewConfigWithConflictingVariables :
  let env := [("PLUGIN_HELM_COMMAND", "execute order 66");
              ("HELM_COMMAND", "defend the jedi");
              ("PLUGIN_PREFIX", "prod"); ("TIMEOUT", "5m0s"); ("PROD_TIMEOUT", "2m30s")] in
  exists cfg out,
    NewConfig env (Some (mkWriter 1 "")) (Some (mkWriter 2 "")) = Ret (Some cfg, None, out) /\
    Command cfg = "defend the jedi" /\ Timeout cfg = "2m30s".
Proof.
  intro env. eexists. eexists. split; [ vm_compute; reflexivity | ].
  repeat split; reflexivity.
Qed.

Example TestNewConfigInfersNumbersAreSeconds :
  exists cfg out,
    NewConfig [("PLUGIN_TIMEOUT", "42")] (Some (mkWriter 1 "")) (Some (mkWriter 2 ""))
    = Ret (Some cfg, None, out) /\
    Timeout cfg = "42s".
Proof. eexists. eexists. split; [ vm_compute; reflexivity | reflexivity ]. Qed.

Example TestLogDebug :
  let stdout := mkWriter 1 "" in
  let stderr := mkWriter 2 "" in
  exists cfg line,
    NewConfig [("DEBUG", "true"); ("HELM_COMMAND", "upgrade")] (Some stdout) (Some stderr)
    = Ret (Some cfg, None, [(stderr, line)]) /\
    String.prefix "Generated config: {Command:upgrade" line = true /\
    strings.Contains line "}" = true.
Proof.
  intros stdout stderr. eexists. eexists. split; [ vm_compute; reflexivity | ].
  split; vm_compute; reflexivity.
Qed.

Example TestLogDebugCensorsKubeToken :
  let stderr := mkWriter 2 "" in
  let kubeToken := "I'm shy! Don't put me in your build logs!" in
  let cfg := setField FStderr (VWriter (Some stderr))
               (setField FKubeToken (VString kubeToken)
                  (setField FDebug (VBool true) (newStruct None None))) in
  exists copy line,
    logDebug cfg = Ret (copy, [(stderr, line)]) /\
    strings.Contains line "KubeToken:(redacted)" = true /\
    KubeToken cfg = kubeToken.
Proof.
  intros stderr kubeToken cfg. eexists. eexists.
  split; [ vm_compute; reflexivity | ]. split; vm_compute; reflexivity.
Qed.

(** ** What [NewConfig] returns *)

Lemma NewConfig_inv (env : os.Environ) (stdout stderr : option Writer)
      (cfg : Config) (r : option envconfig.ParseError) (out : list (Writer * string)) :
  NewConfig env stdout stderr = Ret (Some cfg, r, out) ->
  exists c, readEnv env (newStruct stdout stderr) = (c, None) /\
            cfg = inferSeconds c /\ r = None /\
            out = match stderr with
                  | Some w => if Debug cfg then [(w, debugLine cfg)] else []
                  | None => []
                  end.
Proof.
  intro H.
  destruct (readEnv env (newStruct stdout stderr)) as [c [e |]] eqn:Hr.
  - rewrite (NewConfig_error _ _ _ _ _ Hr) in H. discriminate H.
  - rewrite (NewConfig_ok _ _ _ _ Hr) in H.
    destruct (debugPanics stderr (inferSeconds c)); [ discriminate H | ].
    injection H as <- <- <-.
    exists c. repeat split; reflexivity.
Qed.

Lemma NewConfig_written (env : os.Environ) (stdout : option Writer) (w : Writer)
      (cfg : Config) (r : option envconfig.ParseError) (out : list (Writer * string)) :
  NewConfig env stdout (Some w) = Ret (Some cfg, r, out) ->
  Debug cfg = true ->
  exists u, Write w (debugLine cfg) = Ret u.
Proof.
  intros H Hd. destruct (Write w (debugLine cfg)) as [u |] eqn:Hw;
    [ exists u; reflexivity | exfalso ].
  destruct (NewConfig_inv _ _ _ _ _ _ H) as [c [Hr [Hc _]]]. subst cfg.
  assert (HP : NewConfig env stdout (Some w) = Panic).
  { apply NewConfig_panics. exists w, c. auto. }
  rewrite HP in H. discriminate H.
Qed.


Lemma ToUpper_app (s t : string) :
  strings.ToUpper (s ++ t) = strings.ToUpper s ++ strings.ToUpper t.
Proof. induction s as [| c s IH]; simpl; [ reflexivity | rewrite IH; reflexivity ]. Qed.

Lemma nonEmpty_true (s : string) : s <> "" -> envconfig.nonEmpty s = true.
Proof.
  intro H. unfold envconfig.nonEmpty.
  destruct (String.eqb_spec s ""); [ contradiction | reflexivity ].
Qed.

Lemma envKey_prefixed (prefix : string) (f : Field) :
  prefix <> "" -> fieldKind f <> KInterface ->
  envKey prefix f = strings.ToUpper prefix ++ "_" ++ envKey "" f.
Proof.
  intros Hp Hf. unfold envKey, envconfig.fieldInfo.
  rewrite (nonEmpty_true _ Hp).
  destruct f; try (exfalso; apply Hf; reflexivity);
    cbv beta iota zeta delta [tagIgnored envconfig.isTrue]; 
    simpl; rewrite ToUpper_app; reflexivity.
Qed.

Lemma lookupField_Prefix (prefix : string) (env : os.Environ) :
  lookupField prefix env FPrefix = os.LookupEnv env (envKey prefix FPrefix).
Proof.
  rewrite lookupField_eq. change (envconfig.isTrue (tagIgnored FPrefix)) with false.
  change (envconfig.nonEmpty (envAlt FPrefix)) with false.
  cbv iota. destruct (os.LookupEnv env (envKey prefix FPrefix)); reflexivity.
Qed.

(** ** Look-ups and the names of the variables *)

Lemma envAlt_is_bare_key (f : Field) :
  envconfig.nonEmpty (envAlt f) = true -> envAlt f = envKey "" f.
Proof. destruct f; intro H; try discriminate H; reflexivity. Qed.

Lemma not_ignored (f : Field) :
  fieldKind f <> KInterface -> envconfig.isTrue (tagIgnored f) = false.
Proof. destruct f; intro H; try reflexivity; exfalso; apply H; reflexivity. Qed.


Lemma lookupField_of_key (prefix : string) (env : os.Environ) (f : Field) (value : string) :
  fieldKind f <> KInterface ->
  os.LookupEnv env (envKey prefix f) = Some value ->
  lookupField prefix env f = Some value.
Proof.
  intros Hk H. rewrite lookupField_eq, (not_ignored _ Hk), H. reflexivity.
Qed.


Lemma passes_bare (env : os.Environ) : In "" (passes env).
Proof. unfold passes. right. left. reflexivity. Qed.


(** ** Zero values, the timeout and the prefix field *)



(** C4. When the three passes leave a timeout that is a non-empty string of
    decimal digits, the returned timeout is that string followed by the
    letter s; a timeout with a character that is not a decimal digit is
    returned as it is. No other field is touched by this step. The record
    is returned, unless the call of [Write] for the debug line panics: then
    [NewConfig] panics. *)
Theorem numeric_timeout_gets_seconds
        (env : os.Environ) (stdout stderr : option Writer) (c : Config) :
  readEnv env (newStruct stdout stderr) = (c, None) ->
  exists cfg,
    (if debugPanics stderr cfg
     then NewConfig env stdout stderr = Panic
     else exists out, NewConfig env stdout stderr = Ret (Some cfg, None, out)) /\
    (digitsOnly (Timeout c) = true -> Timeout cfg = Timeout c ++ "s") /\
    (someChar (fun a => negb (regexp.perlDigit a)) (Timeout c) = true ->
     Timeout cfg = Timeout c) /\
    (forall f, f <> FTimeout -> getField f cfg = getField f c).
Proof.
  intro H. exists (inferSeconds c). split.
  - rewrite (NewConfig_ok _ _ _ _ H).
    destruct (debugPanics stderr (inferSeconds c)); [ reflexivity | ].
    eexists. reflexivity.
  - rewrite inferSeconds_Timeout. repeat split.
    + intros ->. reflexivity.
    + intro Hs. unfold digitsOnly. rewrite (someChar_not_all _ _ Hs), andb_false_r.
      reflexivity.
    + intros f Hf. apply inferSeconds_other, Hf.
Qed.

(** C4 at PLUGIN_TIMEOUT=42. *)
Lemma numeric_timeout_gets_seconds_witness :
  let env := [("PLUGIN_TIMEOUT", "42")] in
  let c := setField FTimeout (VString "42") (newStruct None None) in
  readEnv env (newStruct None None) = (c, None) /\
  exists cfg,
    (if debugPanics None cfg
     then NewConfig env None None = Panic
     else exists out, NewConfig env None None = Ret (Some cfg, None, out)) /\
    (digitsOnly (Timeout c) = true -> Timeout cfg = Timeout c ++ "s") /\
    (someChar (fun a => negb (regexp.perlDigit a)) (Timeout c) = true ->
     Timeout cfg = Timeout c) /\
    (forall f, f <> FTimeout -> getField f cfg = getField f c).
Proof.
  intros env c.
  assert (H : readEnv env (newStruct None None) = (c, None)) by reflexivity.
  split; [ exact H | exact (numeric_timeout_gets_seconds env None None c H) ].
Defined.

(** C10. The prefix field is a target of the third pass like any other
    field. With PLUGIN_PREFIX set to a non-empty A, no bare PREFIX variable,
    and the variable made of A in upper case, an underscore and PREFIX set
    to B, the passes are plugin, the bare one and A, the third pass reads
    every field under the upper-cased A followed by an underscore, and the
    prefix field of the returned record is B. *)
Theorem returned_prefix_comes_from_third_pass
        (env : os.Environ) (stdout stderr : option Writer) (A B : string)
        (cfg : Config) (out : list (Writer * string)) :
  os.LookupEnv env "PLUGIN_PREFIX" = Some A ->
  A <> "" ->
  os.LookupEnv env "PREFIX" = None ->
  os.LookupEnv env (strings.ToUpper A ++ "_PREFIX") = Some B ->
  NewConfig env stdout stderr = Ret (Some cfg, None, out) ->
  passes env = ["plugin"; ""; A] /\
  (forall f, envKey A f = strings.ToUpper A ++ "_" ++ envKey "" f \/
             fieldKind f = KInterface) /\
  (forall f, f <> FTimeout ->
             getField f cfg =
             fold_left (passValue env f) ["plugin"; ""; A]
                       (getField f (newStruct stdout stderr))) /\
  Prefix cfg = B.
Proof.
  intros HA Hne Hbare HB H.
  destruct (NewConfig_inv _ _ _ _ _ _ H) as [c [Hr [-> _]]].
  assert (H1 : pluginPrefix env = A).
  { unfold pluginPrefix. rewrite lookupField_Prefix.
    change (envKey "plugin" FPrefix) with "PLUGIN_PREFIX". rewrite HA. reflexivity. }
  assert (H3 : thirdPrefix env = A).
  { unfold thirdPrefix. rewrite lookupField_Prefix.
    change (envKey "" FPrefix) with "PREFIX". rewrite Hbare. exact H1. }
  assert (Hp : passes env = ["plugin"; ""; A]).
  { unfold passes. rewrite H1, H3, (nonEmpty_true _ Hne). reflexivity. }
  assert (Hv : forall f, f <> FTimeout ->
             getField f (inferSeconds c) =
             fold_left (passValue env f) ["plugin"; ""; A]
                       (getField f (newStruct stdout stderr))).
  { intros f Hf. rewrite inferSeconds_other by exact Hf.
    rewrite (readEnv_values _ _ _ _ Hr f), Hp. reflexivity. }
  split; [ exact Hp | ]. split; [ | split; [ exact Hv | ] ].
  - intro f. destruct f; try (right; reflexivity);
      (left; apply envKey_prefixed; [ exact Hne | discriminate ]).
  - assert (Hf : FPrefix <> FTimeout) by discriminate.
    pose proof (Hv FPrefix Hf) as HP. simpl fold_left in HP.
    unfold passValue at 1 in HP. rewrite lookupField_Prefix in HP.
    rewrite (envKey_prefixed A FPrefix Hne) in HP by discriminate.
    change (envKey "" FPrefix) with "PREFIX" in HP.
    change ("_" ++ "PREFIX") with "_PREFIX" in HP. rewrite HB in HP.
    rewrite pick_string in HP by reflexivity. simpl in HP. congruence.
Qed.

(** C10 at PLUGIN_PREFIX=prix_fixe, PRIX_FIXE_PREFIX=menu. *)
Lemma returned_prefix_comes_from_third_pass_witness :
  let env := [("PLUGIN_PREFIX", "prix_fixe"); ("PRIX_FIXE_PREFIX", "menu")] in
  let cfg := setField FPrefix (VString "menu") (newStruct None None) in
  os.LookupEnv env "PLUGIN_PREFIX" = Some "prix_fixe" /\
  "prix_fixe" <> "" /\
  os.LookupEnv env "PREFIX" = None /\
  os.LookupEnv env (strings.ToUpper "prix_fixe" ++ "_PREFIX") = Some "menu" /\
  NewConfig env None None = Ret (Some cfg, None, []) /\
  (passes env = ["plugin"; ""; "prix_fixe"] /\
   (forall f, envKey "prix_fixe" f = strings.ToUpper "prix_fixe" ++ "_" ++ envKey "" f \/
              fieldKind f = KInterface) /\
   (forall f, f <> FTimeout ->
              getField f cfg =
              fold_left (passValue env f) ["plugin"; ""; "prix_fixe"]
                        (getField f (newStruct None None))) /\
   Prefix cfg = "menu").
Proof.
  intros env cfg.
  assert (H1 : os.LookupEnv env "PLUGIN_PREFIX" = Some "prix_fixe") by reflexivity.
  assert (H2 : "prix_fixe" <> "") by discriminate.
  assert (H3 : os.LookupEnv env "PREFIX" = None) by reflexivity.
  assert (H4 : os.LookupEnv env (strings.ToUpper "prix_fixe" ++ "_PREFIX") = Some "menu")
    by reflexivity.
  assert (H5 : NewConfig env None None = Ret (Some cfg, None, [])) by reflexivity.
  repeat (split; [ assumption | ]).
  exact (returned_prefix_comes_from_third_pass env None None "prix_fixe" "menu" cfg []
           H1 H2 H3 H4 H5).
Defined.

(** ** The namespace of the third pass *)

(** C1, on the code. With PLUGIN_PREFIX=prod in both environments, adding
    a bare PREFIX=dev moves the third pass from the PROD_ variables to the
    DEV_ variables: the returned timeout changes from the value of
    PROD_TIMEOUT to the value of DEV_TIMEOUT. The third call of [Process] is
    given [cfg.Prefix], which the second pass has overwritten, and not the
    local [prefix] saved after the first pass. *)
Theorem bare_PREFIX_redirects_third_pass :
  let env := [("PLUGIN_PREFIX", "prod"); ("PROD_TIMEOUT", "2m30s"); ("DEV_TIMEOUT", "1m")] in
  let env' := ("PREFIX", "dev") :: env in
  (pluginPrefix env = "prod" /\ passes env = ["plugin"; ""; "prod"] /\
   exists cfg out, NewConfig env None None = Ret (Some cfg, None, out) /\
                   Timeout cfg = "2m30s") /\
  (pluginPrefix env' = "prod" /\ passes env' = ["plugin"; ""; "dev"] /\
   exists cfg out, NewConfig env' None None = Ret (Some cfg, None, out) /\
                   Timeout cfg = "1m").
Proof.
  intros env env'. repeat split; try reflexivity;
    eexists; eexists; (split; [ vm_compute; reflexivity | reflexivity ]).
Qed.

(** C2, on the code. With PLUGIN_PREFIX=prod, PREFIX=dev, TIMEOUT=5m0s and
    PROD_TIMEOUT=2m30s, the prefix saved after pass 1 is prod and the
    variable PROD_TIMEOUT exists, yet the returned timeout is the bare
    value 5m0s: the third pass looked under DEV_. *)
Theorem bare_PREFIX_hides_prefixed_value :
  let env := [("PLUGIN_PREFIX", "prod"); ("PREFIX", "dev");
              ("TIMEOUT", "5m0s"); ("PROD_TIMEOUT", "2m30s")] in
  pluginPrefix env = "prod" /\
  lookupField "plugin" env FTimeout = None /\
  lookupField "" env FTimeout = Some "5m0s" /\
  lookupField "prod" env FTimeout = Some "2m30s" /\
  exists cfg out, NewConfig env None None = Ret (Some cfg, None, out) /\
                  Timeout cfg = "5m0s".
Proof.
  intro env. repeat split; try reflexivity.
  eexists; eexists; (split; [ vm_compute; reflexivity | reflexivity ]).
Qed.

(** ** Failures *)




Lemma oneOf_In (str : string) (l : list string) :
  strconv.oneOf str l = true <-> In str l.
Proof.
  unfold strconv.oneOf. rewrite existsb_exists. split.
  - intros [x [Hin Heq]]. apply String.eqb_eq in Heq. subst x. exact Hin.
  - intro Hin. exists str. split; [ exact Hin | apply String.eqb_refl ].
Qed.

Lemma true_false_disjoint (value : string) :
  In value ["1"; "t"; "T"; "TRUE"; "true"; "True"] ->
  In value ["0"; "f"; "F"; "FALSE"; "false"; "False"] -> False.
Proof.
  intros Ht Hf. simpl in Ht.
  repeat (destruct Ht as [Ht | Ht];
          [ subst value; simpl in Hf;
            repeat (destruct Hf as [Hf | Hf]; [ discriminate Hf | ]); exact Hf | ]).
  exact Ht.
Qed.

(** C8, amended. For a field of type bool, the conversion yields true
    exactly for the six strings 1, t, T, TRUE, true, True, yields false
    exactly for 0, f, F, FALSE, false, False, and fails for every other
    string. *)
Theorem bool_coercion_accepts_twelve_strings (f : Field) (value : string) :
  fieldKind f = KBool ->
  (envconfig.processField value (fieldKind f) = (Some (VBool true), None) <->
   In value ["1"; "t"; "T"; "TRUE"; "true"; "True"]) /\
  (envconfig.processField value (fieldKind f) = (Some (VBool false), None) <->
   In value ["0"; "f"; "F"; "FALSE"; "false"; "False"]) /\
  (coercionFails f value <->
   ~ In value (["1"; "t"; "T"; "TRUE"; "true"; "True"] ++
               ["0"; "f"; "F"; "FALSE"; "false"; "False"])).
Proof.
  intro Hk. unfold coercionFails. rewrite Hk.
  unfold envconfig.processField, strconv.ParseBool.
  rewrite in_app_iff.
  destruct (strconv.oneOf value ["1"; "t"; "T"; "TRUE"; "true"; "True"]) eqn:Ht.
  - apply oneOf_In in Ht. split; [ | split ].
    + split; [ intros _; exact Ht | reflexivity ].
    + split; [ discriminate | intro Hf; destruct (true_false_disjoint _ Ht Hf) ].
    + split; [ intro H; exfalso; apply H; reflexivity | intro H; exfalso; apply H; left; exact Ht ].
  - assert (Hnt : ~ In value ["1"; "t"; "T"; "TRUE"; "true"; "True"]).
    { intro Hin. apply oneOf_In in Hin. congruence. }
    destruct (strconv.oneOf value ["0"; "f"; "F"; "FALSE"; "false"; "False"]) eqn:Hf.
    + apply oneOf_In in Hf. split; [ | split ].
      * split; [ discriminate | intro H; contradiction ].
      * split; [ intros _; exact Hf | reflexivity ].
      * split; [ intro H; exfalso; apply H; reflexivity
               | intro H; exfalso; apply H; right; exact Hf ].
    + assert (Hnf : ~ In value ["0"; "f"; "F"; "FALSE"; "false"; "False"]).
      { intro Hin. apply oneOf_In in Hin. congruence. }
      split; [ | split ].
      * split; [ discriminate | intro H; contradiction ].
      * split; [ discriminate | intro H; contradiction ].
      * split; [ intros _ [H | H]; contradiction | intros _; simpl; discriminate ].
Qed.

(** C8, amended, at the field Debug and the string True. *)
Lemma bool_coercion_accepts_twelve_strings_witness :
  fieldKind FDebug = KBool /\
  ((envconfig.processField "True" (fieldKind FDebug) = (Some (VBool true), None) <->
    In "True" ["1"; "t"; "T"; "TRUE"; "true"; "True"]) /\
   (envconfig.processField "True" (fieldKind FDebug) = (Some (VBool false), None) <->
    In "True" ["0"; "f"; "F"; "FALSE"; "false"; "False"]) /\
   (coercionFails FDebug "True" <->
    ~ In "True" (["1"; "t"; "T"; "TRUE"; "true"; "True"] ++
                 ["0"; "f"; "F"; "FALSE"; "false"; "False"]))).
Proof.
  split; [ reflexivity | exact (bool_coercion_accepts_twelve_strings FDebug "True" eq_refl) ].
Defined.

(** C8 as stated fails: tRUE is the word true in another letter case, and
    the conversion of PLUGIN_DEBUG=tRUE to the bool field Debug fails. *)
Lemma mixed_case_true_is_rejected :
  sameFold "tRUE" "true" = true /\
  fieldKind FDebug = KBool /\
  coercionFails FDebug "tRUE" /\
  exists e, NewConfig [("PLUGIN_DEBUG", "tRUE")] None None = Ret (None, Some e, []) /\
            envconfig.FieldName e = "Debug" /\ envconfig.Value e = "tRUE".
Proof.
  split; [ reflexivity | ]. split; [ reflexivity | ]. split.
  - unfold coercionFails. simpl. discriminate.
  - eexists. split; [ vm_compute; reflexivity | split; reflexivity ].
Qed.

(** ** The debug line *)

Lemma nonEmpty_false (s : string) : envconfig.nonEmpty s = false -> s = "".
Proof.
  unfold envconfig.nonEmpty. destruct (String.eqb_spec s ""); [ auto | discriminate ].
Qed.

Lemma debugLine_lineShowing (cfg : Config) :
  debugLine cfg =
  lineShowing cfg (if envconfig.nonEmpty (KubeToken cfg) then "(redacted)" else "").
Proof.
  unfold debugLine, lineShowing, redact.
  destruct (envconfig.nonEmpty (KubeToken cfg)) eqn:E.
  - destruct cfg; reflexivity.
  - apply nonEmpty_false in E. destruct cfg. simpl in E. subst. reflexivity.
Qed.

Lemma lineShowing_ext (c d : Config) (token : string) :
  (forall f, f <> FKubeToken -> getField f c = getField f d) ->
  lineShowing c token = lineShowing d token.
Proof.
  intro H. unfold lineShowing.
  assert (E : forall l, ~ In FKubeToken l ->
                        map (fmt.printField c) l = map (fmt.printField d) l).
  { intros l Hl. apply map_ext_in. intros f Hf. unfold fmt.printField.
    rewrite H; [ reflexivity | intros ->; exact (Hl Hf) ]. }
  rewrite (E fieldsBeforeToken), (E fieldsAfterToken); [ reflexivity | | ];
    unfold fieldsAfterToken, fieldsBeforeToken; not_among.
Qed.

Lemma lineFeeds_app (s t : string) : lineFeeds (s ++ t) = lineFeeds s + lineFeeds t.
Proof. induction s as [| c s IH]; simpl; [ reflexivity | rewrite IH; lia ]. Qed.

Lemma lineFeeds_Join (l : list string) :
  (forall x, In x l -> lineFeeds x = 0) -> lineFeeds (strings.Join l " ") = 0.
Proof.
  unfold strings.Join. induction l as [| x l IH]; intro H; [ reflexivity | ].
  destruct l as [| y l]; [ apply H; left; reflexivity | ].
  change (String.concat " " (x :: y :: l)) with (x ++ " " ++ String.concat " " (y :: l)).
  rewrite !lineFeeds_app, (H x (or_introl eq_refl)), IH; [ reflexivity | ].
  intros z Hz. apply H. right. exact Hz.
Qed.

Lemma lineFeeds_printField (c : Config) (f : Field) :
  lineFeeds (fmt.printField c f) = lineFeeds (fmt.printValue (getField f c)).
Proof.
  unfold fmt.printField. rewrite !lineFeeds_app. destruct f; reflexivity.
Qed.

Lemma lineFeeds_debugLine (cfg : Config) :
  (forall f, f <> FKubeToken -> lineFeeds (fmt.printValue (getField f cfg)) = 0) ->
  lineFeeds (debugLine cfg) = 1.
Proof.
  intro H. rewrite debugLine_lineShowing. unfold lineShowing.
  rewrite !lineFeeds_app, lineFeeds_Join; [ reflexivity | ].
  intros x Hx. apply in_app_or in Hx. destruct Hx as [Hx | Hx].
  - apply in_map_iff in Hx. destruct Hx as [f [<- Hf]].
    rewrite lineFeeds_printField. apply H. intros ->. revert Hf.
    unfold fieldsBeforeToken. not_among.
  - apply in_app_or in Hx. destruct Hx as [[<- | []] | Hx].
    + rewrite lineFeeds_app.
      destruct (envconfig.nonEmpty (KubeToken cfg)); reflexivity.
    + apply in_map_iff in Hx. destruct Hx as [f [<- Hf]].
      rewrite lineFeeds_printField. apply H. intros ->. revert Hf.
      unfold fieldsAfterToken. not_among.
Qed.

Lemma append_assoc (s t u : string) : (s ++ t) ++ u = s ++ t ++ u.
Proof. induction s as [| c s IH]; simpl; [ reflexivity | rewrite IH; reflexivity ]. Qed.

Lemma token_position :
  structFields = (fieldsBeforeToken ++ [FKubeToken] ++ fieldsAfterToken)%list.
Proof. reflexivity. Qed.

Lemma lineFeeds_Join_ge (l : list string) (x : string) :
  In x l -> lineFeeds x <= lineFeeds (strings.Join l " ").
Proof.
  unfold strings.Join. induction l as [| y l IH]; intros Hin; [ destruct Hin | ].
  destruct l as [| z l].
  - destruct Hin as [<- | []]. apply Nat.le_refl.
  - change (String.concat " " (y :: z :: l)) with (y ++ " " ++ String.concat " " (z :: l)).
    rewrite !lineFeeds_app. destruct Hin as [<- | Hin]; [ lia | ].
    specialize (IH Hin). lia.
Qed.

Lemma lineFeeds_debugLine_ge (cfg : Config) (f : Field) :
  f <> FKubeToken ->
  1 + lineFeeds (fmt.printValue (getField f cfg)) <= lineFeeds (debugLine cfg).
Proof.
  intro Hf. unfold debugLine, fmt.plusV. rewrite !lineFeeds_app.
  assert (Hin : In (fmt.printField (redact cfg) f)
                   (map (fmt.printField (redact cfg)) structFields)).
  { apply in_map, structFields_all. }
  pose proof (lineFeeds_Join_ge _ _ Hin) as Hge.
  rewrite lineFeeds_printField, (redact_other cfg f Hf) in Hge.
  assert (Hn : lineFeeds newline = 1) by reflexivity.
  rewrite Hn. lia.
Qed.

(** C9, amended. For every environment and every pair of destinations,
    [NewConfig] calls [Write] at most once: on the stderr argument, with
    the debug line, when the passes succeed with the debug flag set and
    stderr is not nil; and in that case the call is made. If the call
    panics, [NewConfig] panics; otherwise it is the only output. No call
    reaches a stdout argument that is a different destination. The text
    ends with a line feed, and it holds no other line feed exactly when no
    field other than the token prints one: the values are printed as they
    are. *)
Theorem writes_one_line_to_stderr_only
        (env : os.Environ) (stdout stderr : option Writer) :
  match NewConfig env stdout stderr with
  | Ret (r, e, out) =>
      (out = [] \/
       exists w cfg, stderr = Some w /\ r = Some cfg /\ Debug cfg = true /\
                     out = [(w, debugLine cfg)]) /\
      (forall w cfg, stderr = Some w -> r = Some cfg -> Debug cfg = true ->
                     out = [(w, debugLine cfg)]) /\
      (forall w text, In (w, text) out ->
                      stderr = Some w /\ (stdout <> stderr -> stdout <> Some w))
  | Panic =>
      exists w c,
        stderr = Some w /\ readEnv env (newStruct stdout stderr) = (c, None) /\
        Debug (inferSeconds c) = true /\
        Write w (debugLine (inferSeconds c)) = Panic
  end /\
  (forall cfg,
      (exists body, debugLine cfg = body ++ newline) /\
      (lineFeeds (debugLine cfg) = 1 <->
       forall f, f <> FKubeToken ->
                 lineFeeds (fmt.printValue (getField f cfg)) = 0)).
Proof.
  split.
  - destruct (NewConfig env stdout stderr) as [[[r e] out] |] eqn:HN;
      [ | apply NewConfig_panics; exact HN ].
    destruct (readEnv env (newStruct stdout stderr)) as [c [e' |]] eqn:Hr.
    + rewrite (NewConfig_error _ _ _ _ _ Hr) in HN. injection HN as <- <- <-.
      split; [ left; reflexivity | ]. split; [ discriminate | intros w text [] ].
    + rewrite (NewConfig_ok _ _ _ _ Hr) in HN.
      destruct (debugPanics stderr (inferSeconds c)); [ discriminate HN | ].
      injection HN as <- <- <-.
      destruct stderr as [w |].
      * destruct (Debug (inferSeconds c)) eqn:Hd.
        -- split; [ right; exists w, (inferSeconds c); auto | ].
           split; [ intros w' cfg Hw Hc _; injection Hw as <-; injection Hc as <-;
                    reflexivity | ].
           intros w' text [Hin | []]. injection Hin as <- <-.
           split; [ reflexivity | intros H1 H2; exact (H1 H2) ].
        -- split; [ left; reflexivity | ].
           split; [ intros w' cfg _ Hc Hd'; injection Hc as <-; congruence | ].
           intros w' text [].
      * split; [ left; reflexivity | ]. split; [ discriminate | intros w text [] ].
  - intro cfg. split; [ | split ].
    + exists ("Generated config: " ++ fmt.plusV (redact cfg)).
      unfold debugLine. rewrite append_assoc. reflexivity.
    + intros H1 f Hf. pose proof (lineFeeds_debugLine_ge cfg f Hf). lia.
    + apply lineFeeds_debugLine.
Qed.

(** C9 as stated fails: with a line feed in PLUGIN_VALUES, which the debug
    line prints as it is, the one text written to stderr holds two line
    feeds, that is, two lines. *)
Lemma debug_text_can_hold_two_lines :
  let w := mkWriter 2 "0xc00000e020" in
  let env := [("PLUGIN_DEBUG", "true"); ("PLUGIN_VALUES", "a" ++ newline ++ "b")] in
  exists cfg text,
    NewConfig env None (Some w) = Ret (Some cfg, None, [(w, text)]) /\
    Debug cfg = true /\
    lineFeeds text = 2.
Proof.
  intros w env. eexists. eexists.
  split; [ vm_compute; reflexivity | ]. split; vm_compute; reflexivity.
Qed.

(** C5, amended. When the record is returned with the debug flag set and
    a stderr destination [w] is supplied, one line is written to [w]. With
    a non-empty token the line prints the field as KubeToken:(redacted)
    between the other fields printed as they are, and it is the same line
    for every other non-empty token; with an empty token the line prints
    the field with nothing after the colon. *)
Theorem debug_line_shows_marker_for_token
        (env : os.Environ) (stdout : option Writer) (w : Writer)
        (cfg : Config) (out : list (Writer * string)) :
  NewConfig env stdout (Some w) = Ret (Some cfg, None, out) ->
  Debug cfg = true ->
  exists line,
    out = [(w, line)] /\
    (KubeToken cfg <> "" ->
     line = lineShowing cfg "(redacted)" /\
     forall cfg', (forall f, f <> FKubeToken -> getField f cfg' = getField f cfg) ->
                  KubeToken cfg' <> "" -> debugLine cfg' = line) /\
    (KubeToken cfg = "" -> line = lineShowing cfg "").
Proof.
  intros H Hd. destruct (NewConfig_inv _ _ _ _ _ _ H) as [c [_ [_ [_ Hout]]]].
  rewrite Hd in Hout. exists (debugLine cfg). split; [ exact Hout | ].
  rewrite debugLine_lineShowing. split.
  - intro Hne. rewrite (nonEmpty_true _ Hne). split; [ reflexivity | ].
    intros cfg' Hsame Hne'. rewrite debugLine_lineShowing, (nonEmpty_true _ Hne').
    apply lineShowing_ext, Hsame.
  - intros ->. reflexivity.
Qed.

(** C5, amended, at DEBUG=true, HELM_COMMAND=upgrade and a token. *)
Lemma debug_line_shows_marker_for_token_witness :
  let w := mkWriter 2 "0xc00000e020" in
  let env := [("DEBUG", "true"); ("HELM_COMMAND", "upgrade");
              ("KUBERNETES_TOKEN", "s3cr3t")] in
  let cfg := setField FKubeToken (VString "s3cr3t")
               (setField FDebug (VBool true)
                  (setField FCommand (VString "upgrade") (newStruct None (Some w)))) in
  NewConfig env None (Some w) = Ret (Some cfg, None, [(w, debugLine cfg)]) /\
  Debug cfg = true /\
  exists line,
    [(w, debugLine cfg)] = [(w, line)] /\
    (KubeToken cfg <> "" ->
     line = lineShowing cfg "(redacted)" /\
     forall cfg', (forall f, f <> FKubeToken -> getField f cfg' = getField f cfg) ->
                  KubeToken cfg' <> "" -> debugLine cfg' = line) /\
    (KubeToken cfg = "" -> line = lineShowing cfg "").
Proof.
  intros w env cfg.
  assert (H : NewConfig env None (Some w) = Ret (Some cfg, None, [(w, debugLine cfg)]))
    by (vm_compute; reflexivity).
  assert (Hd : Debug cfg = true) by reflexivity.
  split; [ exact H | ]. split; [ exact Hd | ].
  exact (debug_line_shows_marker_for_token env None w cfg _ H Hd).
Defined.

(** C5 as stated fails: with the token also part of the value of another
    field, the line shows the marker for KubeToken and still contains the
    token. *)
Lemma token_value_can_occur_in_debug_line :
  let w := mkWriter 2 "0xc00000e020" in
  let env := [("PLUGIN_DEBUG", "true"); ("PLUGIN_KUBERNETES_TOKEN", "s3cr3t");
              ("PLUGIN_VALUES", "auth.token=s3cr3t")] in
  exists cfg line,
    NewConfig env None (Some w) = Ret (Some cfg, None, [(w, line)]) /\
    Debug cfg = true /\
    KubeToken cfg = "s3cr3t" /\
    strings.Contains line "KubeToken:(redacted)" = true /\
    strings.Contains line (KubeToken cfg) = true.
Proof.
  intros w env. eexists. eexists.
  split; [ vm_compute; reflexivity | ]. repeat split; vm_compute; reflexivity.
Qed.

(** C6. The record [NewConfig] returns is the record as it stood before
    the debug line was written, and its token is the one the passes read.
    When a line was written, it was written by [logDebug] on a copy, which
    differs from the returned record in the token only and holds the
    marker in its place. *)
Theorem debug_emission_leaves_record_unchanged
        (env : os.Environ) (stdout stderr : option Writer)
        (cfg : Config) (out : list (Writer * string)) :
  NewConfig env stdout stderr = Ret (Some cfg, None, out) ->
  exists c,
    readEnv env (newStruct stdout stderr) = (c, None) /\
    cfg = inferSeconds c /\
    KubeToken cfg = KubeToken c /\
    (out <> [] ->
     exists copy,
       logDebug cfg = Ret (copy, out) /\
       (forall f, f <> FKubeToken -> getField f copy = getField f cfg) /\
       (KubeToken cfg <> "" -> KubeToken copy = "(redacted)" )).
Proof.
  intro H. destruct (NewConfig_inv _ _ _ _ _ _ H) as [c [Hr [Hc [_ Hout]]]].
  exists c. split; [ exact Hr | ]. split; [ exact Hc | ]. split.
  - pose proof (inferSeconds_other c FKubeToken) as Hk. simpl in Hk. subst cfg.
    assert (E : VString (KubeToken (inferSeconds c)) = VString (KubeToken c))
      by (apply Hk; discriminate).
    congruence.
  - intro Hne. exists (redact cfg).
    assert (Hs : Stderr cfg = stderr).
    { subst cfg. destruct (readEnv_writers _ _ _ _ Hr) as [_ Hs].
      pose proof (inferSeconds_other c FStderr) as Hk. simpl in Hk.
      assert (E : VWriter (Stderr (inferSeconds c)) = VWriter (Stderr c))
        by (apply Hk; discriminate).
      congruence. }
    rewrite logDebug_eq, Hs. destruct stderr as [w |]; [ | contradiction ].
    destruct (Debug cfg) eqn:Hd; [ | contradiction ].
    destruct (NewConfig_written _ _ _ _ _ _ H Hd) as [u Hu]. rewrite Hu.
    split; [ rewrite Hout; reflexivity | ].
    split; [ intros f Hf; apply redact_other, Hf | ].
    intro Ht. unfold redact. rewrite (nonEmpty_true _ Ht). destruct cfg; reflexivity.
Qed.

(** C6 at a run that writes the line: DEBUG=true with a token. *)
Lemma debug_emission_leaves_record_unchanged_witness :
  let w := mkWriter 2 "0xc00000e020" in
  let env := [("DEBUG", "true"); ("KUBERNETES_TOKEN", "s3cr3t")] in
  let cfg := setField FKubeToken (VString "s3cr3t")
               (setField FDebug (VBool true) (newStruct None (Some w))) in
  let out := [(w, debugLine cfg)] in
  NewConfig env None (Some w) = Ret (Some cfg, None, out) /\
  exists c,
    readEnv env (newStruct None (Some w)) = (c, None) /\
    cfg = inferSeconds c /\
    KubeToken cfg = KubeToken c /\
    (out <> [] ->
     exists copy,
       logDebug cfg = Ret (copy, out) /\
       (forall f, f <> FKubeToken -> getField f copy = getField f cfg) /\
       (KubeToken cfg <> "" -> KubeToken copy = "(redacted)" )).
Proof.
  intros w env cfg out.
  assert (H : NewConfig env None (Some w) = Ret (Some cfg, None, out))
    by (vm_compute; reflexivity).
  split; [ exact H | exact (debug_emission_leaves_record_unchanged env None (Some w) cfg out H) ].
Defined.

(** ** Precedence of the passes without a bare PREFIX *)

Lemma processField_sets (value : string) (k : Kind) :
  k <> KInterface -> snd (envconfig.processField value k) = None ->
  exists v, envconfig.processField value k = (Some v, None).
Proof.
  intros Hk Hs. destruct k; unfold envconfig.processField in *.
  - eexists; reflexivity.
  - destruct (strconv.ParseBool value) as [b [e |]]; [ discriminate Hs | eexists; reflexivity ].
  - destruct (envconfig.nonEmpty (strings.TrimSpace value)); eexists; reflexivity.
  - contradiction.
Qed.

Lemma lookupField_not_ignored (prefix : string) (env : os.Environ) (f : Field) (value : string) :
  lookupField prefix env f = Some value -> fieldKind f <> KInterface.
Proof. intros H Hk. rewrite (lookupField_ignored _ _ _ Hk) in H. discriminate H. Qed.

(** X1. The precedence of the passes when no bare PREFIX variable is set. For
    a field other than the timeout, the value the record holds is the
    conversion of: the value found by the pass of the plugin prefix, when
    that prefix is not empty and the pass finds one; else the value found
    by the bare pass; else the value found by the PLUGIN_ pass. *)
Theorem precedence_without_bare_PREFIX
        (env : os.Environ) (stdout stderr : option Writer)
        (cfg : Config) (out : list (Writer * string)) (f : Field) (value : string) :
  NewConfig env stdout stderr = Ret (Some cfg, None, out) ->
  os.LookupEnv env "PREFIX" = None ->
  f <> FTimeout ->
  (pluginPrefix env <> "" /\ lookupField (pluginPrefix env) env f = Some value) \/
  ((pluginPrefix env = "" \/ lookupField (pluginPrefix env) env f = None) /\
   lookupField "" env f = Some value) \/
  ((pluginPrefix env = "" \/ lookupField (pluginPrefix env) env f = None) /\
   lookupField "" env f = None /\ lookupField "plugin" env f = Some value) ->
  exists v, envconfig.processField value (fieldKind f) = (Some v, None) /\
            getField f cfg = v.
Proof.
  intros H Hbare Hf Hcases.
  destruct (NewConfig_inv _ _ _ _ _ _ H) as [c [Hr [-> _]]].
  rewrite inferSeconds_other by exact Hf.
  assert (H3 : thirdPrefix env = pluginPrefix env).
  { unfold thirdPrefix. rewrite lookupField_Prefix.
    change (envKey "" FPrefix) with "PREFIX". rewrite Hbare. reflexivity. }
  assert (Hgood : forall prefix v, In prefix (passes env) ->
            lookupField prefix env f = Some v ->
            exists x, envconfig.processField v (fieldKind f) = (Some x, None)).
  { intros prefix v Hin Hl. apply processField_sets.
    - exact (lookupField_not_ignored _ _ _ _ Hl).
    - destruct (snd (envconfig.processField v (fieldKind f))) as [err |] eqn:Hs;
        [ exfalso | reflexivity ].
      destruct (readEnv_fails env stdout stderr prefix f v Hin Hl) as [c' [e He]].
      + unfold coercionFails. rewrite Hs. discriminate.
      + rewrite Hr in He. discriminate He. }
  rewrite (readEnv_values _ _ _ _ Hr f).
  unfold passes in *. rewrite H3 in *.
  destruct Hcases as [[Hne Hl] | [[Hno Hl] | [Hno [Hl2 Hl]]]].
  - rewrite (nonEmpty_true _ Hne) in *.
    destruct (Hgood (pluginPrefix env) value) as [x Hx];
      [ right; right; left; reflexivity | exact Hl | ].
    exists x. split; [ exact Hx | ].
    simpl fold_left. unfold passValue at 1. rewrite Hl. unfold pick. rewrite Hx. reflexivity.
  - destruct (Hgood "" value) as [x Hx]; [ right; left; reflexivity | exact Hl | ].
    exists x. split; [ exact Hx | ].
    assert (E : forall old, passValue env f old "" = x).
    { intro old. unfold passValue. rewrite Hl. unfold pick. rewrite Hx. reflexivity. }
    destruct (envconfig.nonEmpty (pluginPrefix env)) eqn:Hn; simpl fold_left.
    + destruct Hno as [Hno | Hno]; [ rewrite Hno in Hn; discriminate Hn | ].
      unfold passValue at 1. rewrite Hno. apply E.
    + apply E.
  - destruct (Hgood "plugin" value) as [x Hx]; [ left; reflexivity | exact Hl | ].
    exists x. split; [ exact Hx | ].
    assert (E : forall old, passValue env f old "plugin" = x).
    { intro old. unfold passValue. rewrite Hl. unfold pick. rewrite Hx. reflexivity. }
    destruct (envconfig.nonEmpty (pluginPrefix env)) eqn:Hn; simpl fold_left.
    + destruct Hno as [Hno | Hno]; [ rewrite Hno in Hn; discriminate Hn | ].
      unfold passValue at 1. rewrite Hno. unfold passValue at 1. rewrite Hl2. apply E.
    + unfold passValue at 1. rewrite Hl2. apply E.
Qed.

(** X1 at the environment of the scenario with conflicting
    variables. *)
Lemma precedence_without_bare_PREFIX_witness :
  let env := [("PLUGIN_HELM_COMMAND", "execute order 66");
              ("HELM_COMMAND", "defend the jedi");
              ("PLUGIN_PREFIX", "prod"); ("TIMEOUT", "5m0s"); ("PROD_TIMEOUT", "2m30s")] in
  let cfg := setField FTimeout (VString "2m30s")
               (setField FPrefix (VString "prod")
                  (setField FCommand (VString "defend the jedi") (newStruct None None))) in
  NewConfig env None None = Ret (Some cfg, None, []) /\
  os.LookupEnv env "PREFIX" = None /\
  FCommand <> FTimeout /\
  ((pluginPrefix env <> "" /\
    lookupField (pluginPrefix env) env FCommand = Some "defend the jedi") \/
   ((pluginPrefix env = "" \/ lookupField (pluginPrefix env) env FCommand = None) /\
    lookupField "" env FCommand = Some "defend the jedi") \/
   ((pluginPrefix env = "" \/ lookupField (pluginPrefix env) env FCommand = None) /\
    lookupField "" env FCommand = None /\
    lookupField "plugin" env FCommand = Some "defend the jedi")) /\
  exists v, envconfig.processField "defend the jedi" (fieldKind FCommand) = (Some v, None) /\
            getField FCommand cfg = v.
Proof.
  intros env cfg.
  assert (H1 : NewConfig env None None = Ret (Some cfg, None, [])) by (vm_compute; reflexivity).
  assert (H2 : os.LookupEnv env "PREFIX" = None) by reflexivity.
  assert (H3 : FCommand <> FTimeout) by discriminate.
  assert (H4 : (pluginPrefix env <> "" /\
                lookupField (pluginPrefix env) env FCommand = Some "defend the jedi") \/
               ((pluginPrefix env = "" \/ lookupField (pluginPrefix env) env FCommand = None) /\
                lookupField "" env FCommand = Some "defend the jedi") \/
               ((pluginPrefix env = "" \/ lookupField (pluginPrefix env) env FCommand = None) /\
                lookupField "" env FCommand = None /\
                lookupField "plugin" env FCommand = Some "defend the jedi"))
    by (left; split; [ discriminate | reflexivity ]).
  repeat (split; [ assumption | ]).
  exact (precedence_without_bare_PREFIX env None None cfg [] FCommand "defend the jedi"
           H1 H2 H3 H4).
Defined.

(** ** What the code does with the passes, and the pattern of the timeout *)

(** X2. The third pass as the code runs it. The prefix saved after pass 1 is the
    value of PLUGIN_PREFIX (empty when unset); the prefix handed to the
    third call of [Process] is the value of the bare PREFIX when that is
    set, and the saved prefix otherwise. Every field other than the timeout
    holds, in the returned record, what the passes leave in it one after
    the other, starting from the zero value. *)
Theorem third_pass_reads_prefix_field_after_pass_two
        (env : os.Environ) (stdout stderr : option Writer) :
  pluginPrefix env = match os.LookupEnv env "PLUGIN_PREFIX" with
                     | Some value => value
                     | None => ""
                     end /\
  thirdPrefix env = match os.LookupEnv env "PREFIX" with
                    | Some value => value
                    | None => pluginPrefix env
                    end /\
  (forall cfg out,
      NewConfig env stdout stderr = Ret (Some cfg, None, out) ->
      forall f, f <> FTimeout ->
                getField f cfg =
                fold_left (passValue env f) (passes env)
                          (getField f (newStruct stdout stderr))).
Proof.
  split; [ | split ].
  - unfold pluginPrefix. rewrite lookupField_Prefix. reflexivity.
  - unfold thirdPrefix. rewrite lookupField_Prefix. reflexivity.
  - intros cfg out H f Hf.
    destruct (NewConfig_inv _ _ _ _ _ _ H) as [c [Hr [-> _]]].
    rewrite inferSeconds_other by exact Hf.
    apply (readEnv_values _ _ _ _ Hr).
Qed.

Lemma allChars_In (p : ascii -> bool) (s : string) :
  allChars p s = true <-> (forall c, In c (list_ascii_of_string s) -> p c = true).
Proof.
  induction s as [| a s IH]; simpl.
  - split; [ intros _ c [] | reflexivity ].
  - rewrite andb_true_iff, IH. split.
    + intros [Ha Hs] c [<- | Hc]; [ exact Ha | exact (Hs c Hc) ].
    + intro H. split; [ apply H; left; reflexivity | intros c Hc; apply H; right; exact Hc ].
Qed.

(** X3. The pattern of [justNumbers] matches exactly the non-empty strings all
    of whose characters are among the ten ASCII digits. *)
Theorem timeout_pattern_accepts_digit_strings (s : string) :
  regexp.MatchString justNumbers s = true <->
  s <> "" /\
  (forall c, In c (list_ascii_of_string s) -> (48 <= N_of_ascii c <= 57)%N).
Proof.
  rewrite justNumbers_digitsOnly. unfold digitsOnly.
  rewrite andb_true_iff, allChars_In. split.
  - intros [Hn Hd]. split.
    + intros ->. discriminate Hn.
    + intros c Hc. specialize (Hd c Hc). unfold regexp.perlDigit in Hd.
      apply andb_true_iff in Hd. destruct Hd as [H1 H2].
      apply N.leb_le in H1. apply N.leb_le in H2. split; assumption.
  - intros [Hn Hd]. split.
    + apply nonEmpty_true, Hn.
    + intros c Hc. destruct (Hd c Hc) as [H1 H2]. unfold regexp.perlDigit.
      apply andb_true_iff. split; apply N.leb_le; assumption.
Qed.

(** ** The environment under [Setenv] and [Unsetenv] *)

Section Environment.

Import syscall.

Lemma LookupEnv_remove_same (key : string) (env : os.Environ) :
  os.LookupEnv (remove key env) key = None.
Proof.
  induction env as [| [k v] env IH]; [ reflexivity | ].
  unfold remove in *. simpl. destruct (String.eqb_spec k key) as [-> | Hne]; simpl.
  - exact IH.
  - destruct (String.eqb_spec k key); [ contradiction | exact IH ].
Qed.

Lemma LookupEnv_remove_other (key key' : string) (env : os.Environ) :
  key' <> key -> os.LookupEnv (remove key env) key' = os.LookupEnv env key'.
Proof.
  intro Hne. induction env as [| [k v] env IH]; [ reflexivity | ].
  unfold remove in *. simpl. destruct (String.eqb_spec k key) as [-> | Hk]; simpl.
  - destruct (String.eqb_spec key key'); [ congruence | exact IH ].
  - rewrite IH. reflexivity.
Qed.

Lemma LookupEnv_In (env : os.Environ) (key value : string) :
  os.LookupEnv env key = Some value -> In (key, value) env.
Proof.
  induction env as [| [k v] env IH]; [ discriminate | ].
  simpl. destruct (String.eqb_spec k key) as [-> | Hk].
  - intro H. injection H as ->. left. reflexivity.
  - intro H. right. exact (IH H).
Qed.

Lemma wellFormed_lookup (env : os.Environ) (key value : string) :
  wellFormed env -> os.LookupEnv env key = Some value ->
  validKey key = true /\ validValue value = true.
Proof. intros Hwf H. exact (Hwf _ _ (LookupEnv_In _ _ _ H)). Qed.

Lemma wellFormed_remove (key : string) (env : os.Environ) :
  wellFormed env -> wellFormed (remove key env).
Proof.
  intros Hwf k v Hin. apply filter_In in Hin. exact (Hwf _ _ (proj1 Hin)).
Qed.

Lemma wellFormed_Setenv (key value : string) (env : os.Environ) :
  wellFormed env -> wellFormed (fst (Setenv key value env)).
Proof.
  intro Hwf. unfold Setenv.
  destruct (validKey key && validValue value) eqn:Hv; [ | exact Hwf ].
  apply andb_true_iff in Hv. simpl. intros k v [Heq | Hin].
  - injection Heq as <- <-. exact Hv.
  - exact (wellFormed_remove _ _ Hwf _ _ Hin).
Qed.

Lemma Setenv_same (key value : string) (env : os.Environ) :
  validKey key = true -> validValue value = true ->
  os.LookupEnv (fst (Setenv key value env)) key = Some value.
Proof.
  intros Hk Hv. unfold Setenv. rewrite Hk, Hv. simpl.
  rewrite String.eqb_refl. reflexivity.
Qed.

Lemma Setenv_other (key key' value : string) (env : os.Environ) :
  key' <> key ->
  os.LookupEnv (fst (Setenv key value env)) key' = os.LookupEnv env key'.
Proof.
  intro Hne. unfold Setenv.
  destruct (validKey key && validValue value); [ | reflexivity ].
  simpl. destruct (String.eqb_spec key key'); [ congruence | ].
  apply LookupEnv_remove_other, Hne.
Qed.

End Environment.

(** ** The test suite: saving and restoring the environment *)

Section Suite.

Import ConfigTestSuite.

Lemma restore_same (env : os.Environ) (key : string) (val : option string) :
  (forall value, val = Some value ->
     syscall.validKey key = true /\ syscall.validValue value = true) ->
  os.LookupEnv (restore env (key, val)) key = val.
Proof.
  intro H. unfold restore. simpl. destruct val as [value |].
  - destruct (H value eq_refl) as [Hk Hv]. apply Setenv_same; assumption.
  - apply LookupEnv_remove_same.
Qed.

Lemma restore_other (env : os.Environ) (entry : string * option string) (key : string) :
  key <> fst entry ->
  os.LookupEnv (restore env entry) key = os.LookupEnv env key.
Proof.
  intro Hne. unfold restore. destruct (snd entry).
  - apply Setenv_other, Hne.
  - apply LookupEnv_remove_other, Hne.
Qed.

Lemma fold_restore (order : list (string * option string)) :
  NoDup (map fst order) -> restorable order ->
  forall env,
    (forall key val, In (key, val) order ->
       os.LookupEnv (fold_left restore order env) key = val) /\
    (forall key, ~ In key (map fst order) ->
       os.LookupEnv (fold_left restore order env) key = os.LookupEnv env key).
Proof.
  induction order as [| [k o] order IH]; intros Hnd Hok env.
  - split; [ intros key val [] | reflexivity ].
  - inversion Hnd as [| x l Hk Hnd' ]; subst. simpl in Hk.
    assert (Hok' : restorable order).
    { intros key value Hin. apply (Hok key value). right. exact Hin. }
    destruct (IH Hnd' Hok' (restore env (k, o))) as [IH1 IH2].
    simpl fold_left. split.
    + intros key val [Heq | Hin].
      * injection Heq as <- <-. rewrite (IH2 k Hk). apply restore_same.
        intros value ->. apply (Hok k value). left. reflexivity.
      * exact (IH1 key val Hin).
    + intros key Hout. simpl in Hout.
      rewrite IH2 by (intro Hin; apply Hout; right; exact Hin).
      apply restore_other. simpl. intros ->. apply Hout. left. reflexivity.
Qed.

Lemma store_keys (key : string) (val : option string)
      (m : list (string * option string)) (k : string) :
  In k (map fst (store key val m)) <-> k = key \/ In k (map fst m).
Proof.
  unfold store. simpl. rewrite !in_map_iff. split.
  - intros [Heq | [[k' o] [Hk Hin]]]; [ left; auto | ].
    apply filter_In in Hin. right. exists (k', o). split; [ exact Hk | exact (proj1 Hin) ].
  - intros [-> | [[k' o] [Hk Hin]]]; [ left; reflexivity | ].
    simpl in Hk. subst k'. destruct (String.eqb_spec k key) as [-> | Hne].
    + left. reflexivity.
    + right. exists (k, o). split; [ reflexivity | ].
      apply filter_In. split; [ exact Hin | ]. simpl.
      destruct (String.eqb_spec k key); [ contradiction | reflexivity ].
Qed.

Lemma store_In (key : string) (val : option string)
      (m : list (string * option string)) (k : string) (o : option string) :
  In (k, o) (store key val m) <-> (k = key /\ o = val) \/ (k <> key /\ In (k, o) m).
Proof.
  unfold store. simpl. rewrite filter_In. simpl. split.
  - intros [Heq | [Hin Hne]].
    + injection Heq as <- <-. left. split; reflexivity.
    + right. split; [ | exact Hin ].
      destruct (String.eqb_spec k key); [ discriminate Hne | assumption ].
  - intros [[-> ->] | [Hne Hin]]; [ left; reflexivity | ].
    right. split; [ exact Hin | ].
    destruct (String.eqb_spec k key); [ contradiction | reflexivity ].
Qed.

Lemma store_NoDup (key : string) (val : option string)
      (m : list (string * option string)) :
  NoDup (map fst m) -> NoDup (map fst (store key val m)).
Proof.
  intro Hnd. unfold store. simpl. constructor.
  - rewrite in_map_iff. intros [[k o] [Hk Hin]]. simpl in Hk. subst k.
    apply filter_In in Hin. destruct Hin as [_ Hne]. simpl in Hne.
    rewrite String.eqb_refl in Hne. discriminate Hne.
  - induction m as [| [k o] m IH]; [ constructor | ].
    inversion Hnd as [| x l Hk Hnd' ]; subst. simpl in *.
    destruct (String.eqb k key); simpl; [ exact (IH Hnd') | ].
    constructor; [ | exact (IH Hnd') ].
    rewrite in_map_iff. intros [[k' o'] [Hk' Hin]]. simpl in Hk'. subst k'.
    apply filter_In in Hin. apply Hk. apply in_map_iff.
    exists (k, o'). split; [ reflexivity | exact (proj1 Hin) ].
Qed.

Lemma step_sound (st : State) (s : Step) : sound st -> sound (step st s).
Proof.
  intros [Hwf [Hnd Hok]].
  assert (Hsave : forall key, restorable (store key (os.LookupEnv (environ st) key)
                                                (envBackup st))).
  { intros key k v Hin. apply store_In in Hin. destruct Hin as [[-> Hv] | [_ Hin]].
    - symmetry in Hv. exact (wellFormed_lookup _ _ _ Hwf Hv).
    - exact (Hok _ _ Hin). }
  destruct s as [key val | key]; unfold step, setenv, unsetenv, sound;
    cbn [environ envBackup].
  - split; [ apply wellFormed_Setenv, Hwf | ].
    split; [ apply store_NoDup, Hnd | apply Hsave ].
  - split; [ apply wellFormed_remove, Hwf | ].
    split; [ apply store_NoDup, Hnd | apply Hsave ].
Qed.

Lemma steps_sound (l : list Step) (st : State) : sound st -> sound (steps l st).
Proof.
  revert st. induction l as [| s l IH]; intros st H; [ exact H | ].
  apply IH, step_sound, H.
Qed.

Lemma step_environ_other (st : State) (s : Step) (key : string) :
  key <> stepKey s ->
  os.LookupEnv (environ (step st s)) key = os.LookupEnv (environ st) key.
Proof.
  intro Hne. destruct s as [k v | k]; simpl in *.
  - apply Setenv_other, Hne.
  - apply LookupEnv_remove_other, Hne.
Qed.

(** With every key touched once, the map holds the original values of the
    keys touched and the other variables are as they were. *)
Lemma steps_backup (env0 : os.Environ) (l : list Step) :
  NoDup (map stepKey l) ->
  forall st,
    (forall key val, In (key, val) (envBackup st) -> val = os.LookupEnv env0 key) ->
    (forall key, ~ In key (map fst (envBackup st)) ->
                 os.LookupEnv (environ st) key = os.LookupEnv env0 key) ->
    (forall key, In key (map fst (envBackup st)) -> ~ In key (map stepKey l)) ->
    (forall key val, In (key, val) (envBackup (steps l st)) ->
                     val = os.LookupEnv env0 key) /\
    (forall key, ~ In key (map fst (envBackup (steps l st))) ->
                 os.LookupEnv (environ (steps l st)) key = os.LookupEnv env0 key).
Proof.
  induction l as [| s l IH]; intros Hnd st Hsaved Hrest Hfresh.
  - split; assumption.
  - inversion Hnd as [| x l' Hs Hnd' ]; subst. simpl steps.
    assert (Hkey : ~ In (stepKey s) (map fst (envBackup st))).
    { intro Hin. apply (Hfresh _ Hin). left. reflexivity. }
    assert (Hb : envBackup (step st s) =
                 store (stepKey s) (os.LookupEnv (environ st) (stepKey s)) (envBackup st))
      by (destruct s; reflexivity).
    apply (IH Hnd').
    + intros key val Hin. rewrite Hb in Hin. apply store_In in Hin.
      destruct Hin as [[-> ->] | [_ Hin]]; [ apply Hrest, Hkey | exact (Hsaved _ _ Hin) ].
    + intros key Hout. rewrite Hb in Hout.
      assert (Hne : key <> stepKey s).
      { intros ->. apply Hout. apply store_keys. left. reflexivity. }
      rewrite step_environ_other by exact Hne. apply Hrest.
      intro Hin. apply Hout. apply store_keys. right. exact Hin.
    + intros key Hin Hl. rewrite Hb in Hin. apply store_keys in Hin.
      destruct Hin as [-> | Hin]; [ contradiction | ].
      apply (Hfresh _ Hin). right. exact Hl.
Qed.

(** X11. A test that touches every variable at most once leaves the
    environment as it found it: after [BeforeTest], any calls of [setenv]
    and [unsetenv] on distinct keys, and [AfterTest], every variable is
    set or unset as before the test, in whatever order [range] visits the
    map. *)
Theorem AfterTest_restores_environment
        (env0 : os.Environ) (old : list (string * option string))
        (l : list Step) (order : list (string * option string)) :
  wellFormed env0 ->
  NoDup (map stepKey l) ->
  Permutation order (envBackup (steps l (BeforeTest (mkState env0 old)))) ->
  forall key,
    os.LookupEnv (environ (AfterTestIn order (steps l (BeforeTest (mkState env0 old))))) key
    = os.LookupEnv env0 key.
Proof.
  intros Hwf Hnd Hperm key.
  set (st := steps l (BeforeTest (mkState env0 old))) in *.
  assert (Hsound : sound st).
  { apply steps_sound. split; [ exact Hwf | ]. split; [ constructor | intros k v [] ]. }
  destruct Hsound as [_ [Hnd' Hok]].
  destruct (steps_backup env0 l Hnd (BeforeTest (mkState env0 old)))
    as [Hsaved Hrest]; try (simpl; intros; contradiction); [ reflexivity | ].
  fold st in Hsaved, Hrest.
  assert (HndO : NoDup (map fst order)).
  { apply (Permutation_NoDup (l := map fst (envBackup st)));
      [ apply Permutation_map, Permutation_sym, Hperm | exact Hnd' ]. }
  assert (HokO : restorable order).
  { intros k v Hin. apply (Hok k v). exact (Permutation_in _ Hperm Hin). }
  destruct (fold_restore order HndO HokO (environ st)) as [F1 F2].
  unfold AfterTestIn. simpl environ.
  destruct (in_dec string_dec key (map fst order)) as [Hin | Hout].
  - apply in_map_iff in Hin. destruct Hin as [[k o] [Hk Hin]]. simpl in Hk. subst k.
    rewrite (F1 key o Hin). apply Hsaved. exact (Permutation_in _ Hperm Hin).
  - rewrite (F2 key Hout). apply Hrest. intro Hin. apply Hout.
    exact (Permutation_in _ (Permutation_map fst (Permutation_sym Hperm)) Hin).
Qed.

(** X11 at the calls of TestPrefixSettingMustHavePluginPrefix, with
    HELM_COMMAND set before the test. *)
Lemma AfterTest_restores_environment_witness :
  let env0 := [("HELM_COMMAND", "upgrade")] in
  let l := [DoUnsetenv "PLUGIN_PREFIX"; DoSetenv "PREFIX" "refpix";
            DoSetenv "HELM_COMMAND" "gimme more";
            DoSetenv "REFPIX_HELM_COMMAND" "gimme less"] in
  let order := envBackup (steps l (BeforeTest (mkState env0 []))) in
  wellFormed env0 /\
  NoDup (map stepKey l) /\
  Permutation order (envBackup (steps l (BeforeTest (mkState env0 [])))) /\
  forall key,
    os.LookupEnv (environ (AfterTestIn order (steps l (BeforeTest (mkState env0 []))))) key
    = os.LookupEnv env0 key.
Proof.
  intros env0 l order.
  assert (H1 : wellFormed env0).
  { intros key value [Heq | []]. injection Heq as <- <-. split; reflexivity. }
  assert (H2 : NoDup (map stepKey l)).
  { simpl. repeat (constructor; [ not_among | ]). constructor. }
  assert (H3 : Permutation order (envBackup (steps l (BeforeTest (mkState env0 [])))))
    by apply Permutation_refl.
  split; [ exact H1 | ]. split; [ exact H2 | ]. split; [ exact H3 | ].
  exact (AfterTest_restores_environment env0 [] l order H1 H2 H3).
Defined.

(** X12. The map keeps one value per key, the one found by the last call:
    when a test sets a variable and then touches it again, [AfterTest]
    leaves the variable at the value of the first call, whatever it held
    before the test. *)
Theorem second_touch_saves_the_first_value
        (env0 : os.Environ) (old : list (string * option string))
        (before : list Step) (key a : string) (again : Step)
        (order : list (string * option string)) :
  wellFormed env0 ->
  syscall.validKey key = true ->
  syscall.validValue a = true ->
  stepKey again = key ->
  Permutation order
    (envBackup (step (setenv key a (steps before (BeforeTest (mkState env0 old)))) again)) ->
  os.LookupEnv
    (environ (AfterTestIn order
       (step (setenv key a (steps before (BeforeTest (mkState env0 old)))) again))) key
  = Some a.
Proof.
  intros Hwf Hk Ha Hkey Hperm.
  set (st0 := steps before (BeforeTest (mkState env0 old))) in *.
  set (st := step (setenv key a st0) again) in *.
  assert (Hs0 : sound st0).
  { apply steps_sound. split; [ exact Hwf | ]. split; [ constructor | intros k v [] ]. }
  assert (Hsound : sound st).
  { apply step_sound. exact (step_sound st0 (DoSetenv key a) Hs0). }
  destruct Hsound as [_ [Hnd Hok]].
  assert (Hin : In (key, Some a) (envBackup st)).
  { assert (Hb : envBackup st =
                 store key (os.LookupEnv (environ (setenv key a st0)) key)
                       (envBackup (setenv key a st0))).
    { unfold st. destruct again; simpl in Hkey; subst; reflexivity. }
    rewrite Hb. apply store_In. left. split; [ reflexivity | ].
    symmetry. unfold setenv. cbn [environ]. apply Setenv_same; assumption. }
  assert (HndO : NoDup (map fst order)).
  { apply (Permutation_NoDup (l := map fst (envBackup st)));
      [ apply Permutation_map, Permutation_sym, Hperm | exact Hnd ]. }
  assert (HokO : restorable order).
  { intros k v Hi. apply (Hok k v). exact (Permutation_in _ Hperm Hi). }
  destruct (fold_restore order HndO HokO (environ st)) as [F1 _].
  unfold AfterTestIn. cbn [environ]. apply F1.
  exact (Permutation_in _ (Permutation_sym Hperm) Hin).
Qed.

(** X12 at a variable that was not set before the test: it is set after. *)
Lemma second_touch_saves_the_first_value_witness :
  let st := step (setenv "TIMEOUT" "42" (steps [] (BeforeTest (mkState [] []))))
                 (DoUnsetenv "TIMEOUT") in
  wellFormed [] /\
  syscall.validKey "TIMEOUT" = true /\
  syscall.validValue "42" = true /\
  stepKey (DoUnsetenv "TIMEOUT") = "TIMEOUT" /\
  Permutation (envBackup st) (envBackup st) /\
  os.LookupEnv (environ (AfterTestIn (envBackup st) st)) "TIMEOUT" = Some "42".
Proof.
  intro st.
  assert (H1 : wellFormed []) by (intros key value []).
  assert (H2 : syscall.validKey "TIMEOUT" = true) by reflexivity.
  assert (H3 : syscall.validValue "42" = true) by reflexivity.
  assert (H4 : stepKey (DoUnsetenv "TIMEOUT") = "TIMEOUT") by reflexivity.
  assert (H5 : Permutation (envBackup st) (envBackup st)) by apply Permutation_refl.
  repeat (split; [ assumption | ]).
  exact (second_touch_saves_the_first_value [] [] [] "TIMEOUT" "42"
           (DoUnsetenv "TIMEOUT") (envBackup st) H1 H2 H3 H4 H5).
Defined.

End Suite.

(** ** More on what [NewConfig] returns *)

Lemma allChars_app (p : ascii -> bool) (s t : string) :
  allChars p (s ++ t) = allChars p s && allChars p t.
Proof.
  induction s as [| c s IH]; simpl; [ reflexivity | ].
  rewrite IH, andb_assoc. reflexivity.
Qed.

Lemma inferSeconds_not_digits (c : Config) :
  digitsOnly (Timeout (inferSeconds c)) = false.
Proof.
  rewrite inferSeconds_Timeout.
  destruct (digitsOnly (Timeout c)) eqn:Hd; [ | exact Hd ].
  unfold digitsOnly. rewrite allChars_app. simpl.
  rewrite andb_false_r, andb_false_r. reflexivity.
Qed.

(** X4. A record returned by [NewConfig] never holds a timeout made of
    digits only: the pattern [justNumbers] does not match it, and the
    normalisation that appends [s] leaves the record as it is when it is
    applied again. *)
Theorem returned_timeout_is_never_digits_only
        (env : os.Environ) (stdout stderr : option Writer)
        (cfg : Config) (out : list (Writer * string)) :
  NewConfig env stdout stderr = Ret (Some cfg, None, out) ->
  regexp.MatchString justNumbers (Timeout cfg) = false /\
  inferSeconds cfg = cfg.
Proof.
  intro H. destruct (NewConfig_inv _ _ _ _ _ _ H) as [c [_ [-> _]]].
  assert (Hm : regexp.MatchString justNumbers (Timeout (inferSeconds c)) = false).
  { rewrite justNumbers_digitsOnly. apply inferSeconds_not_digits. }
  split; [ exact Hm | ].
  unfold inferSeconds at 1. rewrite Hm. reflexivity.
Qed.

(** X4 at PLUGIN_TIMEOUT=42. *)
Lemma returned_timeout_is_never_digits_only_witness :
  let env := [("PLUGIN_TIMEOUT", "42")] in
  let cfg := setField FTimeout (VString "42s") (newStruct None None) in
  NewConfig env None None = Ret (Some cfg, None, []) /\
  regexp.MatchString justNumbers (Timeout cfg) = false /\
  inferSeconds cfg = cfg.
Proof.
  intros env cfg.
  assert (H : NewConfig env None None = Ret (Some cfg, None, [])) by reflexivity.
  split; [ exact H | exact (returned_timeout_is_never_digits_only env None None cfg [] H) ].
Defined.

(** ** The failure that is reported *)

Lemma processFields_error_first (prefix : string) (env : os.Environ) (fs : list Field) :
  forall c c' e,
    processFields prefix env fs c = (c', Some e) ->
    exists l1 f l2 value,
      fs = (l1 ++ f :: l2)%list /\
      (forall g, In g l1 -> convertible prefix env g) /\
      lookupField prefix env f = Some value /\
      coercionFails f value /\
      envconfig.KeyName e = envKey prefix f /\
      envconfig.FieldName e = fieldName f /\
      envconfig.Value e = value.
Proof.
  induction fs as [| g fs IH]; intros c c' e Hrun; [ discriminate Hrun | ].
  rewrite processFields_cons in Hrun.
  assert (Hnext : forall cg, convertible prefix env g ->
            processFields prefix env fs cg = (c', Some e) ->
            exists l1 f l2 value,
              (g :: fs = l1 ++ f :: l2)%list /\
              (forall h, In h l1 -> convertible prefix env h) /\
              lookupField prefix env f = Some value /\
              coercionFails f value /\
              envconfig.KeyName e = envKey prefix f /\
              envconfig.FieldName e = fieldName f /\
              envconfig.Value e = value).
  { intros cg Hg Hcg. destruct (IH _ _ _ Hcg) as [l1 [f [l2 [value [-> [Hl1 Hrest]]]]]].
    exists (g :: l1), f, l2, value. split; [ reflexivity | ]. split; [ | exact Hrest ].
    intros h [<- | Hh]; [ exact Hg | exact (Hl1 h Hh) ]. }
  destruct (lookupField prefix env g) as [gv |] eqn:Hlk.
  - destruct (envconfig.processField gv (fieldKind g)) as [[v |] [err |]] eqn:Hpf.
    + injection Hrun as _ <-. exists [], g, fs, gv.
      split; [ reflexivity | ]. split; [ intros h [] | ]. split; [ exact Hlk | ].
      split; [ unfold coercionFails; rewrite Hpf; discriminate | ].
      repeat split; reflexivity.
    + apply (Hnext (setField g v c)); [ | exact Hrun ].
      intros value Hv. rewrite Hlk in Hv. injection Hv as <-.
      unfold coercionFails. rewrite Hpf. intro H. apply H. reflexivity.
    + injection Hrun as _ <-. exists [], g, fs, gv.
      split; [ reflexivity | ]. split; [ intros h [] | ]. split; [ exact Hlk | ].
      split; [ unfold coercionFails; rewrite Hpf; discriminate | ].
      repeat split; reflexivity.
    + apply (Hnext c); [ | exact Hrun ].
      intros value Hv. rewrite Hlk in Hv. injection Hv as <-.
      unfold coercionFails. rewrite Hpf. intro H. apply H. reflexivity.
  - apply (Hnext c); [ | exact Hrun ].
    intros value Hv. rewrite Hlk in Hv. discriminate Hv.
Qed.

Lemma Process_ok_convertible (prefix : string) (env : os.Environ) (c c' : Config) :
  envconfig.Process prefix env c = (c', None) ->
  forall g, convertible prefix env g.
Proof.
  intros H g value Hl Hbad.
  destruct (Process_fails _ _ _ _ Hl Hbad c) as [c'' [e He]]. congruence.
Qed.

(** X5. When [NewConfig] fails, the error is that of the first value, in
    the order the code reads them, that cannot be converted: the passes run
    in order and each pass goes through the fields in the order of the
    struct; everything found by the earlier passes, and by the same pass
    for the earlier fields, can be converted; the error names the key of
    that pass for the field, the field, and the value found. *)
Theorem first_failure_is_reported
        (env : os.Environ) (stdout stderr : option Writer)
        (r : option Config) (e : envconfig.ParseError) (out : list (Writer * string)) :
  NewConfig env stdout stderr = Ret (r, Some e, out) ->
  exists before prefix after l1 f l2 value,
    passes env = (before ++ prefix :: after)%list /\
    (forall q g, In q before -> convertible q env g) /\
    structFields = (l1 ++ f :: l2)%list /\
    (forall g, In g l1 -> convertible prefix env g) /\
    lookupField prefix env f = Some value /\
    coercionFails f value /\
    envconfig.KeyName e = envKey prefix f /\
    envconfig.FieldName e = fieldName f /\
    envconfig.Value e = value.
Proof.
  intro H.
  destruct (readEnv env (newStruct stdout stderr)) as [c [e' |]] eqn:Hr.
  2:{ rewrite (NewConfig_ok _ _ _ _ Hr) in H.
      destruct (debugPanics stderr (inferSeconds c)); discriminate H. }
  rewrite (NewConfig_error _ _ _ _ _ Hr) in H. injection H as _ <- _.
  assert (Hpass : forall prefix c0 c1,
            envconfig.Process prefix env c0 = (c1, Some e') ->
            forall before after,
            passes env = (before ++ prefix :: after)%list ->
            (forall q g, In q before -> convertible q env g) ->
            exists before prefix after l1 f l2 value,
              passes env = (before ++ prefix :: after)%list /\
              (forall q g, In q before -> convertible q env g) /\
              structFields = (l1 ++ f :: l2)%list /\
              (forall g, In g l1 -> convertible prefix env g) /\
              lookupField prefix env f = Some value /\
              coercionFails f value /\
              envconfig.KeyName e' = envKey prefix f /\
              envconfig.FieldName e' = fieldName f /\
              envconfig.Value e' = value).
  { intros prefix c0 c1 HP before after Hp Hb.
    destruct (processFields_error_first _ _ _ _ _ _ HP)
      as [l1 [f [l2 [value Hrest]]]].
    exists before, prefix, after, l1, f, l2, value. auto. }
  destruct (readEnv_steps _ _ _ _ _ Hr)
    as [[_ H1] | [c1 [H1 [_ [[_ H2] | [c2 [H2 [_ H3]]]]]]]].
  - apply (Hpass _ _ _ H1 [] (tl (passes env))); [ reflexivity | intros q g [] ].
  - apply (Hpass _ _ _ H2 ["plugin"] (tl (tl (passes env)))); [ reflexivity | ].
    intros q g [<- | []]. exact (Process_ok_convertible _ _ _ _ H1 g).
  - unfold passes in *. destruct (envconfig.nonEmpty (pluginPrefix env)).
    + apply (Hpass _ _ _ H3 ["plugin"; ""] []); [ reflexivity | ].
      intros q g [<- | [<- | []]].
      * exact (Process_ok_convertible _ _ _ _ H1 g).
      * exact (Process_ok_convertible _ _ _ _ H2 g).
    + destruct H3 as [_ H3]. discriminate H3.
Qed.

(** X5 at an environment with three values that cannot be converted: the
    one of the first pass is reported. *)
Lemma first_failure_is_reported_witness :
  let env := [("FORCE", "maybe"); ("PLUGIN_DEBUG", "yes"); ("PLUGIN_WAIT", "no")] in
  let e := envconfig.mkParseError "PLUGIN_DEBUG" "Debug" "bool" "yes"
             (strconv.mkNumError "ParseBool" "yes" strconv.ErrSyntax) in
  NewConfig env None None = Ret (None, Some e, []) /\
  exists before prefix after l1 f l2 value,
    passes env = (before ++ prefix :: after)%list /\
    (forall q g, In q before -> convertible q env g) /\
    structFields = (l1 ++ f :: l2)%list /\
    (forall g, In g l1 -> convertible prefix env g) /\
    lookupField prefix env f = Some value /\
    coercionFails f value /\
    envconfig.KeyName e = envKey prefix f /\
    envconfig.FieldName e = fieldName f /\
    envconfig.Value e = value.
Proof.
  intros env e.
  assert (H : NewConfig env None None = Ret (None, Some e, [])) by (vm_compute; reflexivity).
  split; [ exact H | exact (first_failure_is_reported env None None None e [] H) ].
Defined.

(** ** The last pass *)

Lemma passes_last (env : os.Environ) :
  passes env = (removelast (passes env) ++ [lastPass env])%list.
Proof. apply app_removelast_last. unfold passes. discriminate. Qed.

Lemma lastPass_In (env : os.Environ) : In (lastPass env) (passes env).
Proof. rewrite passes_last. apply in_or_app. right. left. reflexivity. Qed.

Lemma found_is_converted (env : os.Environ) (stdout stderr : option Writer)
      (c : Config) (prefix : string) (f : Field) (value : string) :
  readEnv env (newStruct stdout stderr) = (c, None) ->
  In prefix (passes env) ->
  lookupField prefix env f = Some value ->
  exists v, envconfig.processField value (fieldKind f) = (Some v, None).
Proof.
  intros Hr Hin Hl. apply processField_sets.
  - exact (lookupField_not_ignored _ _ _ _ Hl).
  - destruct (snd (envconfig.processField value (fieldKind f))) as [err |] eqn:Hs;
      [ exfalso | reflexivity ].
    destruct (readEnv_fails env stdout stderr prefix f value Hin Hl) as [c' [e He]].
    + unfold coercionFails. rewrite Hs. discriminate.
    + rewrite Hr in He. discriminate He.
Qed.

Lemma last_pass_value (env : os.Environ) (stdout stderr : option Writer)
      (c : Config) (f : Field) (value : string) :
  readEnv env (newStruct stdout stderr) = (c, None) ->
  lookupField (lastPass env) env f = Some value ->
  exists v, envconfig.processField value (fieldKind f) = (Some v, None) /\
            getField f c = v.
Proof.
  intros Hr Hl.
  destruct (found_is_converted _ _ _ _ _ _ _ Hr (lastPass_In env) Hl) as [v Hv].
  exists v. split; [ exact Hv | ].
  rewrite (readEnv_values _ _ _ _ Hr f), passes_last, fold_left_app. simpl.
  unfold passValue at 1. rewrite Hl. unfold pick. rewrite Hv. reflexivity.
Qed.

(** X7. The last pass that runs has the last word: when it finds a value
    for a field, the returned field is the conversion of that value,
    whatever the earlier passes found; for the timeout, a value of digits
    only is returned with [s] appended. *)
Theorem last_pass_decides
        (env : os.Environ) (stdout stderr : option Writer)
        (cfg : Config) (out : list (Writer * string)) (f : Field) (value : string) :
  NewConfig env stdout stderr = Ret (Some cfg, None, out) ->
  lookupField (lastPass env) env f = Some value ->
  exists v,
    envconfig.processField value (fieldKind f) = (Some v, None) /\
    (f <> FTimeout -> getField f cfg = v) /\
    (f = FTimeout ->
     Timeout cfg = if digitsOnly value then value ++ "s" else value).
Proof.
  intros H Hl. destruct (NewConfig_inv _ _ _ _ _ _ H) as [c [Hr [-> _]]].
  destruct (last_pass_value _ _ _ _ _ _ Hr Hl) as [v [Hv Hg]].
  exists v. split; [ exact Hv | ]. split.
  - intro Hf. rewrite inferSeconds_other by exact Hf. exact Hg.
  - intros ->. rewrite inferSeconds_Timeout. simpl in Hv, Hg.
    injection Hv as <-. injection Hg as ->. reflexivity.
Qed.

(** X7 at the timeout, with a value in each of the three passes. *)
Lemma last_pass_decides_witness :
  let env := [("PLUGIN_PREFIX", "prod"); ("PREFIX", "dev"); ("TIMEOUT", "5m0s");
              ("PROD_TIMEOUT", "2m30s"); ("DEV_TIMEOUT", "90")] in
  let cfg := setField FTimeout (VString "90s")
               (setField FPrefix (VString "dev") (newStruct None None)) in
  NewConfig env None None = Ret (Some cfg, None, []) /\
  lookupField (lastPass env) env FTimeout = Some "90" /\
  exists v,
    envconfig.processField "90" (fieldKind FTimeout) = (Some v, None) /\
    (FTimeout <> FTimeout -> getField FTimeout cfg = v) /\
    (FTimeout = FTimeout ->
     Timeout cfg = if digitsOnly "90" then "90" ++ "s" else "90").
Proof.
  intros env cfg.
  assert (H1 : NewConfig env None None = Ret (Some cfg, None, []))
    by (vm_compute; reflexivity).
  assert (H2 : lookupField (lastPass env) env FTimeout = Some "90") by reflexivity.
  split; [ exact H1 | ]. split; [ exact H2 | ].
  exact (last_pass_decides env None None cfg [] FTimeout "90" H1 H2).
Defined.

(** ** Variables set to the empty string, and lists *)

Lemma coercionFails_empty (f : Field) : fieldKind f = KBool -> coercionFails f "".
Proof. intro Hk. unfold coercionFails. rewrite Hk. simpl. discriminate. Qed.

(** X6. A variable that is set, but to the empty string, is not the same
    as an unset one.  (a) If any pass reads the empty string for a boolean
    field, [NewConfig] fails, returns no record and writes nothing.  (b) If
    the last pass reads the empty string for a string or list field, the
    returned field is the zero value, also when an earlier pass found a
    value for it. *)
Theorem empty_variable_fails_or_erases
        (env : os.Environ) (stdout stderr : option Writer) :
  (forall prefix f,
      In prefix (passes env) -> fieldKind f = KBool ->
      os.LookupEnv env (envKey prefix f) = Some "" ->
      exists e, NewConfig env stdout stderr = Ret (None, Some e, []) ) /\
  (forall cfg out f,
      NewConfig env stdout stderr = Ret (Some cfg, None, out) ->
      fieldKind f = KString \/ fieldKind f = KStrings ->
      os.LookupEnv env (envKey (lastPass env) f) = Some "" ->
      getField f cfg = zeroValue (fieldKind f)).
Proof.
  split.
  - intros prefix f Hin Hk Hv.
    assert (Hl : lookupField prefix env f = Some "").
    { apply lookupField_of_key; [ rewrite Hk; discriminate | exact Hv ]. }
    destruct (readEnv_fails env stdout stderr prefix f "" Hin Hl (coercionFails_empty f Hk))
      as [c [e He]].
    exists e. exact (NewConfig_error _ _ _ _ _ He).
  - intros cfg out f H Hk Hv.
    assert (Hl : lookupField (lastPass env) env f = Some "").
    { apply lookupField_of_key; [ | exact Hv ].
      destruct Hk as [Hk | Hk]; rewrite Hk; discriminate. }
    destruct (NewConfig_inv _ _ _ _ _ _ H) as [c [Hr [-> _]]].
    destruct (last_pass_value _ _ _ _ _ _ Hr Hl) as [v [Hpf Hg]].
    assert (Hz : v = zeroValue (fieldKind f)).
    { destruct Hk as [Hk | Hk]; rewrite Hk in *; simpl in Hpf;
        injection Hpf as <-; reflexivity. }
    destruct (Field_eq_dec f FTimeout) as [-> | Hne].
    + simpl in Hg, Hz. rewrite Hz in Hg. injection Hg as Hg.
      simpl. rewrite inferSeconds_Timeout, Hg. reflexivity.
    + rewrite inferSeconds_other by exact Hne. congruence.
Qed.

(** X6 at PLUGIN_DEBUG set to the empty string, and at NAMESPACE set to
    the empty string beside a PLUGIN_NAMESPACE that has a value. *)
Lemma empty_variable_fails_or_erases_witness :
  (exists e, NewConfig [("PLUGIN_DEBUG", "")] None None = Ret (None, Some e, [])) /\
  (let env := [("PLUGIN_NAMESPACE", "staging"); ("NAMESPACE", "")] in
   let cfg := newStruct None None in
   NewConfig env None None = Ret (Some cfg, None, []) /\
   getField FNamespace cfg = zeroValue (fieldKind FNamespace)).
Proof.
  split.
  - apply (proj1 (empty_variable_fails_or_erases [("PLUGIN_DEBUG", "")] None None)
             "plugin" FDebug);
      [ left; reflexivity | reflexivity | reflexivity ].
  - intros env cfg.
    assert (H : NewConfig env None None = Ret (Some cfg, None, []))
      by (vm_compute; reflexivity).
    split; [ exact H | ].
    apply (proj2 (empty_variable_fails_or_erases env None None) cfg [] FNamespace H);
      [ left; reflexivity | reflexivity ].
Defined.

Lemma Split_not_nil (s : string) (sep : ascii) : strings.Split s sep <> [].
Proof.
  destruct s as [| c s]; simpl; [ discriminate | ].
  destruct (Ascii.eqb c sep); [ discriminate | ].
  destruct (strings.Split s sep); discriminate.
Qed.

Lemma Join_cons (x : string) (l : list string) (sep : string) :
  l <> [] -> strings.Join (x :: l) sep = x ++ sep ++ strings.Join l sep.
Proof. destruct l; [ contradiction | reflexivity ]. Qed.

Lemma Join_Split (s : string) (sep : ascii) :
  strings.Join (strings.Split s sep) (String sep EmptyString) = s.
Proof.
  induction s as [| c s IH]; [ reflexivity | ].
  simpl strings.Split. destruct (Ascii.eqb_spec c sep) as [-> | Hne].
  - rewrite Join_cons by apply Split_not_nil. rewrite IH. reflexivity.
  - destruct (strings.Split s sep) as [| w ws] eqn:Hs;
      [ destruct (Split_not_nil _ _ Hs) | ].
    destruct ws as [| w' ws].
    + simpl in *. rewrite IH. reflexivity.
    + rewrite Join_cons by discriminate. rewrite Join_cons in IH by discriminate.
      change (String c w ++ String sep EmptyString
                ++ strings.Join (w' :: ws) (String sep EmptyString))
        with (String c (w ++ String sep EmptyString
                          ++ strings.Join (w' :: ws) (String sep EmptyString))).
      rewrite IH. reflexivity.
Qed.

Lemma Split_pieces (s : string) (sep : ascii) :
  forall x, In x (strings.Split s sep) ->
            syscall.hasByte (Ascii.eqb sep) x = false.
Proof.
  induction s as [| c s IH]; intros x Hx.
  - destruct Hx as [<- | []]. reflexivity.
  - simpl in Hx. destruct (Ascii.eqb_spec c sep) as [-> | Hne].
    + destruct Hx as [<- | Hx]; [ reflexivity | exact (IH x Hx) ].
    + destruct (strings.Split s sep) as [| w ws] eqn:Hs;
        [ destruct (Split_not_nil _ _ Hs) | ].
      destruct Hx as [<- | Hx].
      * simpl. rewrite (IH w (or_introl eq_refl)).
        destruct (Ascii.eqb_spec sep c); [ congruence | reflexivity ].
      * apply IH. right. exact Hx.
Qed.

Lemma Contains_comma (x : string) :
  syscall.hasByte (Ascii.eqb ",") x = false -> strings.Contains x "," = false.
Proof.
  induction x as [| c x IH]; [ reflexivity | ].
  intro H.
  change (Ascii.eqb "," c || syscall.hasByte (Ascii.eqb ",") x = false) in H.
  apply orb_false_iff in H. destruct H as [Hc Hx].
  change (String.prefix "," (String c x) || strings.Contains x "," = false).
  rewrite (IH Hx), orb_false_r.
  change ((if Ascii.ascii_dec "," c then String.prefix "" x else false) = false).
  destruct (Ascii.ascii_dec "," c) as [<- | _]; [ | reflexivity ].
  rewrite Ascii.eqb_refl in Hc. discriminate Hc.
Qed.

(** X8. A list field, when the last pass finds a value for it, is that
    value cut at its commas: no list at all when the value is empty or
    white space only; otherwise a non-empty list of strings without a
    comma which, joined again with commas, give the value back.  The
    pieces are not trimmed. *)
Theorem list_field_is_split_on_commas
        (env : os.Environ) (stdout stderr : option Writer)
        (cfg : Config) (out : list (Writer * string)) (f : Field) (value : string) :
  NewConfig env stdout stderr = Ret (Some cfg, None, out) ->
  fieldKind f = KStrings ->
  lookupField (lastPass env) env f = Some value ->
  exists l,
    getField f cfg = VStrings l /\
    (strings.TrimSpace value = "" -> l = []) /\
    (strings.TrimSpace value <> "" ->
     l <> [] /\
     strings.Join l "," = value /\
     forall x, In x l -> strings.Contains x "," = false).
Proof.
  intros H Hk Hl. destruct (NewConfig_inv _ _ _ _ _ _ H) as [c [Hr [-> _]]].
  destruct (last_pass_value _ _ _ _ _ _ Hr Hl) as [v [Hpf Hg]].
  assert (Hne : f <> FTimeout) by (intros ->; discriminate Hk).
  rewrite inferSeconds_other by exact Hne. rewrite Hg.
  rewrite Hk in Hpf. unfold envconfig.processField in Hpf.
  destruct (envconfig.nonEmpty (strings.TrimSpace value)) eqn:Ht;
    injection Hpf as <-.
  - exists (strings.Split value ","). split; [ reflexivity | ]. split.
    + intro He. rewrite He in Ht. discriminate Ht.
    + intros _. split; [ apply Split_not_nil | ]. split; [ apply Join_Split | ].
      intros x Hx. apply Contains_comma. exact (Split_pieces _ _ x Hx).
  - exists []. split; [ reflexivity | ]. split; [ reflexivity | ].
    intro Hn. rewrite (nonEmpty_true _ Hn) in Ht. discriminate Ht.
Qed.

(** X8 at a list of two repositories. *)
Lemma list_field_is_split_on_commas_witness :
  let env := [("HELM_REPOS", "stable=https://charts.example,local=http://127.0.0.1")] in
  let cfg := setField FAddRepos
               (VStrings ["stable=https://charts.example"; "local=http://127.0.0.1"])
               (newStruct None None) in
  NewConfig env None None = Ret (Some cfg, None, []) /\
  fieldKind FAddRepos = KStrings /\
  lookupField (lastPass env) env FAddRepos
  = Some "stable=https://charts.example,local=http://127.0.0.1" /\
  exists l,
    getField FAddRepos cfg = VStrings l /\
    (strings.TrimSpace "stable=https://charts.example,local=http://127.0.0.1" = "" ->
     l = []) /\
    (strings.TrimSpace "stable=https://charts.example,local=http://127.0.0.1" <> "" ->
     l <> [] /\
     strings.Join l "," = "stable=https://charts.example,local=http://127.0.0.1" /\
     forall x, In x l -> strings.Contains x "," = false).
Proof.
  intros env cfg.
  assert (H1 : NewConfig env None None = Ret (Some cfg, None, []))
    by (vm_compute; reflexivity).
  assert (H2 : fieldKind FAddRepos = KStrings) by reflexivity.
  assert (H3 : lookupField (lastPass env) env FAddRepos
               = Some "stable=https://charts.example,local=http://127.0.0.1")
    by reflexivity.
  split; [ exact H1 | ]. split; [ exact H2 | ]. split; [ exact H3 | ].
  exact (list_field_is_split_on_commas env None None cfg [] FAddRepos _ H1 H2 H3).
Defined.

(** White space is what Unicode calls so: a list variable that holds a
    no-break space (U+00A0, the bytes 0xc2 0xa0) and nothing else gives the
    empty list. *)
Example list_of_no_break_space_is_empty :
  let nbsp := String (ascii_of_nat 194) (String (ascii_of_nat 160) EmptyString) in
  strings.TrimSpace nbsp = "" /\
  NewConfig [("HELM_REPOS", nbsp)] None None
  = Ret (Some (newStruct None None), None, []).
Proof. intro nbsp. split; vm_compute; reflexivity. Qed.

(** ** The variables [NewConfig] depends on *)

Lemma processFields_ext (prefix : string) (env1 env2 : os.Environ) (fs : list Field) :
  (forall f, lookupField prefix env1 f = lookupField prefix env2 f) ->
  forall c, processFields prefix env1 fs c = processFields prefix env2 fs c.
Proof.
  intro H. induction fs as [| f fs IH]; intro c; [ reflexivity | ].
  rewrite !processFields_cons, H.
  destruct (lookupField prefix env2 f) as [value |]; [ | apply IH ].
  destruct (envconfig.processField value (fieldKind f)) as [[v |] [err |]];
    try reflexivity; apply IH.
Qed.

Lemma lookupField_agree (env1 env2 : os.Environ) (l : list string) (prefix : string) :
  In "" l -> In prefix l ->
  (forall p f, In p l -> os.LookupEnv env1 (envKey p f) = os.LookupEnv env2 (envKey p f)) ->
  forall f, lookupField prefix env1 f = lookupField prefix env2 f.
Proof.
  intros Hbare Hin H f. rewrite !lookupField_eq.
  destruct (envconfig.isTrue (tagIgnored f)); [ reflexivity | ].
  rewrite (H prefix f Hin).
  destruct (os.LookupEnv env2 (envKey prefix f)); [ reflexivity | ].
  destruct (envconfig.nonEmpty (envAlt f)) eqn:Ha; [ | reflexivity ].
  rewrite (envAlt_is_bare_key _ Ha). apply (H "" f Hbare).
Qed.

(** X9. [NewConfig] depends on the environment only through the
    variables of its passes: two environments that agree on the variable
    [<PREFIX>_<SUFFIX>] of every field for every pass that runs in the
    first one give the same result, the same error and the same output. *)
Theorem NewConfig_reads_only_the_variables_of_its_passes
        (env1 env2 : os.Environ) (stdout stderr : option Writer) :
  (forall prefix f, In prefix (passes env1) ->
     os.LookupEnv env1 (envKey prefix f) = os.LookupEnv env2 (envKey prefix f)) ->
  NewConfig env1 stdout stderr = NewConfig env2 stdout stderr.
Proof.
  intro H.
  assert (Hl : forall prefix, In prefix (passes env1) ->
                 forall f, lookupField prefix env1 f = lookupField prefix env2 f).
  { intros prefix Hin. apply (lookupField_agree env1 env2 (passes env1));
      [ apply passes_bare | exact Hin | exact H ]. }
  assert (HP : forall prefix, In prefix (passes env1) ->
                 forall c, envconfig.Process prefix env1 c = envconfig.Process prefix env2 c).
  { intros prefix Hin c. apply (processFields_ext prefix env1 env2 structFields).
    exact (Hl prefix Hin). }
  assert (Hr : readEnv env1 (newStruct stdout stderr)
               = readEnv env2 (newStruct stdout stderr)).
  { unfold readEnv.
    rewrite <- (HP "plugin") by (unfold passes; left; reflexivity).
    destruct (envconfig.Process "plugin" env1 (newStruct stdout stderr))
      as [c1 [e1 |]] eqn:H1; [ reflexivity | ].
    rewrite <- (HP "") by apply passes_bare.
    destruct (envconfig.Process "" env1 c1) as [c2 [e2 |]] eqn:H2; [ reflexivity | ].
    destruct (envconfig.nonEmpty (Prefix c1)) eqn:Hn; [ | reflexivity ].
    apply HP.
    assert (HP1 : Prefix c1 = pluginPrefix env1).
    { rewrite (Prefix_passValue _ _ _ _ H1). reflexivity. }
    assert (HP2 : Prefix c2 = thirdPrefix env1).
    { rewrite (Prefix_passValue _ _ _ _ H2). unfold thirdPrefix.
      rewrite HP1. reflexivity. }
    unfold passes. rewrite <- HP1, Hn, HP2. right. right. left. reflexivity. }
  unfold NewConfig. rewrite Hr. reflexivity.
Qed.

(** X9 at two environments that differ in variables no pass reads. *)
Lemma NewConfig_reads_only_the_variables_of_its_passes_witness :
  let env1 := [("PLUGIN_PREFIX", "prod"); ("PROD_TIMEOUT", "2m30s")] in
  let env2 := [("IXFREP_PLUGIN_HELM_COMMAND", "send me to sleep inside");
               ("PROD_TIMEOUT", "2m30s"); ("DEV_TIMEOUT", "1m");
               ("PLUGIN_PREFIX", "prod")] in
  (forall prefix f, In prefix (passes env1) ->
     os.LookupEnv env1 (envKey prefix f) = os.LookupEnv env2 (envKey prefix f)) /\
  NewConfig env1 None None = NewConfig env2 None None.
Proof.
  intros env1 env2.
  assert (H : forall prefix f, In prefix (passes env1) ->
            os.LookupEnv env1 (envKey prefix f) = os.LookupEnv env2 (envKey prefix f)).
  { intros prefix f [<- | [<- | [<- | []]]]; destruct f; reflexivity. }
  split; [ exact H | ].
  exact (NewConfig_reads_only_the_variables_of_its_passes env1 env2 None None H).
Defined.

(** ** The letter case of the prefix *)

Lemma envKey_ignored (prefix : string) (f : Field) :
  fieldKind f = KInterface -> envKey prefix f = "".
Proof. destruct f; try discriminate; reflexivity. Qed.

Lemma Kind_is_interface (k : Kind) : {k = KInterface} + {k <> KInterface}.
Proof. destruct k; [ right | right | right | left ]; try discriminate; reflexivity. Qed.

(** X10. A prefix of ASCII bytes is used in upper case only: two
    non-empty prefixes of ASCII bytes that differ in the case of their
    letters alone name the same variable for every field, and a pass of
    [envconfig.Process] with one is a pass with the other. *)
Theorem prefix_is_read_in_upper_case
        (p q : string) (env : os.Environ) (c : Config) :
  p <> "" -> q <> "" ->
  strings.isASCII p = true -> strings.isASCII q = true ->
  strings.ToUpper p = strings.ToUpper q ->
  (forall f, envKey p f = envKey q f) /\
  envconfig.Process p env c = envconfig.Process q env c.
Proof.
  intros Hp Hq _ _ Hpq.
  assert (Hk : forall f, envKey p f = envKey q f).
  { intro f. destruct (Kind_is_interface (fieldKind f)) as [Hi | Hi].
    - rewrite !envKey_ignored by exact Hi. reflexivity.
    - rewrite (envKey_prefixed p f Hp Hi), (envKey_prefixed q f Hq Hi), Hpq.
      reflexivity. }
  split; [ exact Hk | ].
  unfold envconfig.Process, envconfig.gatherInfo. f_equal.
  apply flat_map_ext. intro f. rewrite !fieldInfo_shape, Hk. reflexivity.
Qed.

(** X10 at [prod] and [Prod]. *)
Lemma prefix_is_read_in_upper_case_witness :
  "prod" <> "" /\ "Prod" <> "" /\
  strings.isASCII "prod" = true /\ strings.isASCII "Prod" = true /\
  strings.ToUpper "prod" = strings.ToUpper "Prod" /\
  (forall f, envKey "prod" f = envKey "Prod" f) /\
  envconfig.Process "prod" [("PROD_TIMEOUT", "2m30s")] (newStruct None None)
  = envconfig.Process "Prod" [("PROD_TIMEOUT", "2m30s")] (newStruct None None).
Proof.
  assert (H1 : "prod" <> "") by discriminate.
  assert (H2 : "Prod" <> "") by discriminate.
  assert (A1 : strings.isASCII "prod" = true) by reflexivity.
  assert (A2 : strings.isASCII "Prod" = true) by reflexivity.
  assert (H3 : strings.ToUpper "prod" = strings.ToUpper "Prod") by reflexivity.
  split; [ exact H1 | ]. split; [ exact H2 | ].
  split; [ exact A1 | ]. split; [ exact A2 | ]. split; [ exact H3 | ].
  exact (prefix_is_read_in_upper_case "prod" "Prod" [("PROD_TIMEOUT", "2m30s")]
           (newStruct None None) H1 H2 A1 A2 H3).
Defined.

(** ** Two tests in an arbitrary environment *)

Lemma setenv_lookup (st : ConfigTestSuite.State) (key val k : string) :
  syscall.validKey key = true -> syscall.validValue val = true ->
  os.LookupEnv (ConfigTestSuite.environ (ConfigTestSuite.setenv key val st)) k =
  if String.eqb key k then Some val else os.LookupEnv (ConfigTestSuite.environ st) k.
Proof.
  intros Hk Hv. unfold ConfigTestSuite.setenv. cbn [ConfigTestSuite.environ].
  destruct (String.eqb_spec key k) as [<- | Hne].
  - apply Setenv_same; assumption.
  - apply Setenv_other. congruence.
Qed.

Lemma unsetenv_lookup (st : ConfigTestSuite.State) (key k : string) :
  os.LookupEnv (ConfigTestSuite.environ (ConfigTestSuite.unsetenv key st)) k =
  if String.eqb key k then None else os.LookupEnv (ConfigTestSuite.environ st) k.
Proof.
  unfold ConfigTestSuite.unsetenv, syscall.Unsetenv. cbn [ConfigTestSuite.environ].
  destruct (String.eqb_spec key k) as [<- | Hne].
  - apply LookupEnv_remove_same.
  - apply LookupEnv_remove_other. congruence.
Qed.

Lemma testEnv_MustHavePluginPrefix (env0 : os.Environ) (k : string) :
  os.LookupEnv (testEnv setupMustHavePluginPrefix env0) k =
  if String.eqb "REFPIX_HELM_COMMAND" k then Some "gimme less"
  else if String.eqb "HELM_COMMAND" k then Some "gimme more"
  else if String.eqb "PREFIX" k then Some "refpix"
  else if String.eqb "PLUGIN_PREFIX" k then None
  else os.LookupEnv env0 k.
Proof.
  unfold testEnv, setupMustHavePluginPrefix, ConfigTestSuite.steps.
  cbn [fold_left ConfigTestSuite.step].
  rewrite !setenv_lookup by reflexivity. rewrite unsetenv_lookup. reflexivity.
Qed.

Lemma testEnv_ConfigurablePrefix (env0 : os.Environ) (k : string) :
  os.LookupEnv (testEnv setupConfigurablePrefix env0) k =
  if String.eqb "PRIX_FIXE_API_SERVER" k then Some "your waiter this evening"
  else if String.eqb "PLUGIN_PREFIX" k then Some "prix_fixe"
  else if String.eqb "PLUGIN_API_SERVER" k then None
  else if String.eqb "API_SERVER" k then None
  else os.LookupEnv env0 k.
Proof.
  unfold testEnv, setupConfigurablePrefix, ConfigTestSuite.steps.
  cbn [fold_left ConfigTestSuite.step].
  rewrite !setenv_lookup by reflexivity. rewrite !unsetenv_lookup. reflexivity.
Qed.

(** X13. TestPrefixSettingMustHavePluginPrefix does not depend on the
    environment the tests are started in: after the calls of [unsetenv]
    and [setenv] at its head, whatever the environment was before, there
    is no third pass, and a record that [NewConfig] returns has the
    command of the unprefixed variable, as the test asserts. *)
Theorem TestPrefixSettingMustHavePluginPrefix_in_any_environment
        (env0 : os.Environ) (stdout stderr : option Writer)
        (cfg : Config) (out : list (Writer * string)) :
  NewConfig (testEnv setupMustHavePluginPrefix env0) stdout stderr
  = Ret (Some cfg, None, out) ->
  passes (testEnv setupMustHavePluginPrefix env0) = ["plugin"; ""] /\
  Command cfg = "gimme more".
Proof.
  intro H. set (env := testEnv setupMustHavePluginPrefix env0) in *.
  assert (Hp : passes env = ["plugin"; ""]).
  { unfold passes, pluginPrefix. rewrite lookupField_Prefix.
    change (envKey "plugin" FPrefix) with "PLUGIN_PREFIX".
    unfold env. rewrite testEnv_MustHavePluginPrefix. reflexivity. }
  split; [ exact Hp | ].
  assert (Hl : lookupField (lastPass env) env FCommand = Some "gimme more").
  { unfold lastPass. rewrite Hp. cbn [last]. rewrite lookupField_eq.
    change (envconfig.isTrue (tagIgnored FCommand)) with false.
    change (envKey "" FCommand) with "HELM_COMMAND".
    unfold env. rewrite testEnv_MustHavePluginPrefix. reflexivity. }
  destruct (NewConfig_inv _ _ _ _ _ _ H) as [c [Hr [-> _]]].
  destruct (last_pass_value _ _ _ _ _ _ Hr Hl) as [v [Hv Hg]].
  simpl in Hv. injection Hv as <-.
  pose proof (inferSeconds_other c FCommand) as Hi. simpl in Hi, Hg.
  assert (E : VString (Command (inferSeconds c)) = VString (Command c))
    by (apply Hi; discriminate).
  congruence.
Qed.

(** X13 at an environment in which PLUGIN_PREFIX and other variables were
    set before the test. *)
Lemma TestPrefixSettingMustHavePluginPrefix_in_any_environment_witness :
  let env0 := [("PLUGIN_PREFIX", "prod"); ("PROD_HELM_COMMAND", "rollback");
               ("REFPIX_TIMEOUT", "7")] in
  let cfg := setField FPrefix (VString "refpix")
               (setField FCommand (VString "gimme more") (newStruct None None)) in
  NewConfig (testEnv setupMustHavePluginPrefix env0) None None
  = Ret (Some cfg, None, []) /\
  passes (testEnv setupMustHavePluginPrefix env0) = ["plugin"; ""] /\
  Command cfg = "gimme more".
Proof.
  intros env0 cfg.
  assert (H : NewConfig (testEnv setupMustHavePluginPrefix env0) None None
              = Ret (Some cfg, None, [])) by (vm_compute; reflexivity).
  split; [ exact H | ].
  exact (TestPrefixSettingMustHavePluginPrefix_in_any_environment env0 None None cfg [] H).
Defined.

(** X14. TestNewConfigWithConfigurablePrefix, started in an environment
    without a bare PREFIX variable: after the calls at its head the third
    pass has the prefix [prix_fixe], and a record that [NewConfig] returns
    has the API server of PRIX_FIXE_API_SERVER; its prefix is [prix_fixe]
    as the test asserts when PRIX_FIXE_PREFIX is unset, and the value of
    that variable otherwise, which the test does not clear. *)
Theorem TestNewConfigWithConfigurablePrefix_without_bare_PREFIX
        (env0 : os.Environ) (stdout stderr : option Writer)
        (cfg : Config) (out : list (Writer * string)) :
  NewConfig (testEnv setupConfigurablePrefix env0) stdout stderr
  = Ret (Some cfg, None, out) ->
  os.LookupEnv env0 "PREFIX" = None ->
  passes (testEnv setupConfigurablePrefix env0) = ["plugin"; ""; "prix_fixe"] /\
  APIServer cfg = "your waiter this evening" /\
  Prefix cfg = match os.LookupEnv env0 "PRIX_FIXE_PREFIX" with
               | Some value => value
               | None => "prix_fixe"
               end.
Proof.
  intros H Hno. set (env := testEnv setupConfigurablePrefix env0) in *.
  destruct (NewConfig_inv _ _ _ _ _ _ H) as [c [Hr [-> _]]].
  assert (Hplug : pluginPrefix env = "prix_fixe").
  { unfold pluginPrefix. rewrite lookupField_Prefix.
    change (envKey "plugin" FPrefix) with "PLUGIN_PREFIX".
    unfold env. rewrite testEnv_ConfigurablePrefix. reflexivity. }
  assert (Hbare : os.LookupEnv env "PREFIX" = None).
  { unfold env. rewrite testEnv_ConfigurablePrefix. exact Hno. }
  assert (Hthird : thirdPrefix env = "prix_fixe").
  { unfold thirdPrefix. rewrite lookupField_Prefix.
    change (envKey "" FPrefix) with "PREFIX". rewrite Hbare, Hplug. reflexivity. }
  assert (Hp : passes env = ["plugin"; ""; "prix_fixe"]).
  { unfold passes. rewrite Hplug, Hthird. reflexivity. }
  split; [ exact Hp | ].
  split.
  - assert (Hl : lookupField (lastPass env) env FAPIServer
                 = Some "your waiter this evening").
    { unfold lastPass. rewrite Hp. cbn [last]. rewrite lookupField_eq.
      change (envconfig.isTrue (tagIgnored FAPIServer)) with false.
      change (envKey "prix_fixe" FAPIServer) with "PRIX_FIXE_API_SERVER".
      unfold env. rewrite testEnv_ConfigurablePrefix. reflexivity. }
    destruct (last_pass_value _ _ _ _ _ _ Hr Hl) as [v [Hv Hg]].
    simpl in Hv. injection Hv as <-.
    assert (E : getField FAPIServer (inferSeconds c) = getField FAPIServer c)
      by (apply inferSeconds_other; discriminate).
    simpl in E, Hg. congruence.
  - assert (E : getField FPrefix (inferSeconds c) = getField FPrefix c)
      by (apply inferSeconds_other; discriminate).
    rewrite (readEnv_values _ _ _ _ Hr FPrefix), Hp in E.
    cbn [fold_left] in E. unfold passValue in E.
    rewrite !lookupField_Prefix in E.
    change (envKey "prix_fixe" FPrefix) with "PRIX_FIXE_PREFIX" in E.
    change (envKey "" FPrefix) with "PREFIX" in E.
    change (envKey "plugin" FPrefix) with "PLUGIN_PREFIX" in E.
    rewrite Hbare in E. unfold env in E.
    rewrite !testEnv_ConfigurablePrefix in E.
    cbn [String.eqb Ascii.eqb Bool.eqb] in E.
    destruct (os.LookupEnv env0 "PRIX_FIXE_PREFIX") as [value |];
      rewrite !pick_string in E by reflexivity; simpl in E; congruence.
Qed.

(** X14 at an environment in which PRIX_FIXE_PREFIX was set before the
    test. *)
Lemma TestNewConfigWithConfigurablePrefix_without_bare_PREFIX_witness :
  let env0 := [("API_SERVER", "elsewhere"); ("PRIX_FIXE_PREFIX", "menu");
               ("PLUGIN_PREFIX", "prod")] in
  let cfg := setField FPrefix (VString "menu")
               (setField FAPIServer (VString "your waiter this evening")
                  (newStruct None None)) in
  NewConfig (testEnv setupConfigurablePrefix env0) None None
  = Ret (Some cfg, None, []) /\
  os.LookupEnv env0 "PREFIX" = None /\
  passes (testEnv setupConfigurablePrefix env0) = ["plugin"; ""; "prix_fixe"] /\
  APIServer cfg = "your waiter this evening" /\
  Prefix cfg = "menu".
Proof.
  intros env0 cfg.
  assert (H : NewConfig (testEnv setupConfigurablePrefix env0) None None
              = Ret (Some cfg, None, [])) by (vm_compute; reflexivity).
  split; [ exact H | ]. split; [ reflexivity | ].
  exact (TestNewConfigWithConfigurablePrefix_without_bare_PREFIX
           env0 None None cfg [] H eq_refl).
Defined.
